(** * Rule-Engine: the rule language front end and its evaluation engine

    A shallow embedding of [core/rule_system.py]: the attribute catalog, the
    tokenizer, the recursive-descent parser, the decision-tree compiler and the
    [RuleEngine], followed by the properties of the specification that were
    checked against them.

    Conventions of the embedding.
    - A Python [str] is a [string]; a character is a code point below 256, so
      the text covered is Latin-1.  [str.lower], [str.strip], [str.split] and
      the two [re.sub] calls of the tokenizer are written out on that
      alphabet.
    - A Python value that can reach the engine (a JSON scalar of a candidate or
      a literal of a rule) is a [value]; a [float] is an IEEE 754 binary64
      number, [spec_float] at precision 53.
    - A raised exception is the [Raise] branch of [result]; the engine's
      methods are state transformers that return the state reached when the
      exception left the method.
    - [dict]s that are only looked up are [gmap]s; a candidate, whose items are
      iterated in insertion order, is an association list.
    - The children of an [operation] and the triples found by
      [find_conditions] live in Python [set]s, whose iteration order the source
      leaves to the hash table.  They are lists here, in insertion order.
    - The limits of the interpreter (recursion depth, the number of digits
      [int] converts) are left out. *)

From Stdlib Require Import ZArith Ascii String SpecFloat.
From stdpp Require Import base option list strings gmap.

Local Open Scope string_scope.
Local Open Scope Z_scope.

(** ** Python strings *)

Module PyStr.

Definition code (c : ascii) : N := N_of_ascii c.

(** [str.isspace] on one code point below 256: TAB, LF, VT, FF, CR, the
    separators FS, GS, RS, US, the space, NEL and the no-break space. *)
Definition isspace (c : ascii) : bool :=
  let n := code c in
  ((9 <=? n) && (n <=? 13) || (28 <=? n) && (n <=? 32)
   || (n =? 133) || (n =? 160))%N.

(** [str.lower] on one code point: the ASCII capitals and the Latin-1
    capitals other than the multiplication sign move up by 32. *)
Definition lower_char (c : ascii) : ascii :=
  let n := code c in
  if ((65 <=? n) && (n <=? 90)
      || (192 <=? n) && (n <=? 222) && negb (n =? 215))%N
  then ascii_of_N (n + 32) else c.

Fixpoint lower (s : string) : string :=
  match s with
  | EmptyString => EmptyString
  | String c r => String (lower_char c) (lower r)
  end.

Fixpoint lstrip (p : ascii -> bool) (s : string) : string :=
  match s with
  | EmptyString => EmptyString
  | String c r => if p c then lstrip p r else s
  end.

Fixpoint rstrip (p : ascii -> bool) (s : string) : string :=
  match s with
  | EmptyString => EmptyString
  | String c r =>
      match rstrip p r with
      | EmptyString => if p c then EmptyString else String c EmptyString
      | r' => String c r'
      end
  end.

(** [s.strip()] with [p := isspace], [s.strip(chars)] with [p] the
    membership test of [chars]. *)
Definition strip (p : ascii -> bool) (s : string) : string :=
  rstrip p (lstrip p s).

(** [s.split()]: the maximal runs of characters that are not white space. *)
Fixpoint split (s : string) : list string :=
  match s with
  | EmptyString => []
  | String c r =>
      let ts := split r in
      if isspace c then ts
      else match r with
           | EmptyString => [String c EmptyString]
           | String c' _ =>
               if isspace c' then String c EmptyString :: ts
               else match ts with
                    | t :: ts' => String c t :: ts'
                    | [] => [String c EmptyString]
                    end
           end
  end.

(** [sep.join(parts)] *)
Fixpoint join (sep : string) (parts : list string) : string :=
  match parts with
  | [] => EmptyString
  | [p] => p
  | p :: ps => p ++ sep ++ join sep ps
  end.

(** The empty [str] is the only falsy one. *)
Definition truthy (s : string) : bool :=
  match s with EmptyString => false | _ => true end.

End PyStr.

(** ** Python values *)

(** [VNone] is [None]; a JSON list or object in a candidate behaves like it
    in every operation of the core (it is no [str], [bool], [int] or
    [float], it equals no literal and it has no order with one). *)
Inductive value : Type :=
| VNone
| VBool (b : bool)
| VInt (z : Z)
| VFloat (f : spec_float)
| VStr (s : string).

(** ** Exceptions and results *)

(** The exceptions the core raises.  [ParseError] is the dataclass of the
    source, with its three fields.  The built-in exceptions carry their
    message; [InvalidValue] is the [ValueError] of [RuleEngine.evaluate] whose
    message prints a candidate value, kept here with the value itself. *)
Inductive exn : Type :=
| ParseError (message : string) (position : nat) (token : string)
| ValueError (message : string)
| InvalidValue (attr_name : string) (v : value)
| AttributeError (message : string)
| TypeError (message : string).

Inductive result (A : Type) : Type :=
| Ok (a : A)
| Raise (e : exn).
Arguments Ok {A} a.
Arguments Raise {A} e.

Definition bind {A B : Type} (r : result A) (k : A -> result B) : result B :=
  match r with
  | Ok a => k a
  | Raise e => Raise e
  end.

Declare Scope result_scope.
Delimit Scope result_scope with result.
Notation "x <- r ;; k" := (bind r (fun x => k))
  (at level 100, r at next level, right associativity) : result_scope.
Notation "r ;;; k" := (bind r (fun _ => k))
  (at level 100, right associativity) : result_scope.
Local Open Scope result_scope.

(** [[f(x) for x in xs]]: the elements are evaluated in order and the first
    exception ends the comprehension. *)
Definition map_result {A B : Type} (f : A -> result B) : list A -> result (list B) :=
  fix go (xs : list A) : result (list B) :=
    match xs with
    | [] => Ok []
    | x :: xs' => y <- f x ;; ys <- go xs' ;; Ok (y :: ys)
    end.

(** ** Operations on values *)

Module PyValue.

Definition prec : Z := 53.
Definition emax : Z := 1024.

Definition type_name (v : value) : string :=
  match v with
  | VNone => "NoneType"
  | VBool _ => "bool"
  | VInt _ => "int"
  | VFloat _ => "float"
  | VStr _ => "str"
  end.

(** [isinstance(v, int)]: [bool] is a subclass of [int]. *)
Definition is_int (v : value) : bool :=
  match v with VBool _ | VInt _ => true | _ => false end.

Definition is_bool (v : value) : bool :=
  match v with VBool _ => true | _ => false end.

(** [isinstance(v, (int, float))] *)
Definition is_number (v : value) : bool :=
  match v with VBool _ | VInt _ | VFloat _ => true | _ => false end.

(** The numeric tower: a [bool] counts as the [int] 0 or 1. *)
Inductive num : Type :=
| NInt (z : Z)
| NFloat (f : spec_float).

Definition as_num (v : value) : option num :=
  match v with
  | VBool b => Some (NInt (if b then 1 else 0))
  | VInt z => Some (NInt z)
  | VFloat f => Some (NFloat f)
  | _ => None
  end.

(** An [int] against a [float]: Python compares the two exactly, without
    rounding the [int]. *)
Definition int_float_compare (z : Z) (f : spec_float) : option comparison :=
  match f with
  | S754_nan => None
  | S754_infinity s => Some (if s then Gt else Lt)
  | S754_zero _ => Some (z ?= 0)
  | S754_finite s m e =>
      let m := if s then Z.neg m else Z.pos m in
      if 0 <=? e then Some (z ?= m * 2 ^ e)
      else Some (z * 2 ^ (- e) ?= m)
  end.

(** [None]: one of the two is a NaN. *)
Definition num_compare (a b : num) : option comparison :=
  match a, b with
  | NInt x, NInt y => Some (x ?= y)
  | NInt x, NFloat g => int_float_compare x g
  | NFloat f, NInt y => CompOpp <$> int_float_compare y f
  | NFloat f, NFloat g => SFcompare f g
  end.

(** [a == b] *)
Definition eq (a b : value) : bool :=
  match a, b with
  | VNone, VNone => true
  | VStr s, VStr t => (s =? t)%string
  | _, _ =>
      match as_num a, as_num b with
      | Some x, Some y =>
          match num_compare x y with Some Eq => true | _ => false end
      | _, _ => false
      end
  end.

(** The order of two values: [inl tt] when the types have none (the
    comparison raises [TypeError]), [inr None] when a NaN is involved (every
    comparison is false). *)
Definition compare (a b : value) : unit + option comparison :=
  match a, b with
  | VStr s, VStr t => inr (Some (String.compare s t))
  | _, _ =>
      match as_num a, as_num b with
      | Some x, Some y => inr (num_compare x y)
      | _, _ => inl tt
      end
  end.

Definition order (sym : string) (holds : comparison -> bool) (a b : value)
  : result bool :=
  match compare a b with
  | inl _ =>
      Raise (TypeError ("'" ++ sym ++ "' not supported between instances of '"
                        ++ type_name a ++ "' and '" ++ type_name b ++ "'"))
  | inr None => Ok false
  | inr (Some c) => Ok (holds c)
  end.

Definition lt := order "<" (fun c => match c with Lt => true | _ => false end).
Definition gt := order ">" (fun c => match c with Gt => true | _ => false end).
Definition le := order "<=" (fun c => match c with Gt => false | _ => true end).
Definition ge := order ">=" (fun c => match c with Lt => false | _ => true end).

(** [v.lower()]: only a [str] has the method. *)
Definition lower (v : value) : result string :=
  match v with
  | VStr s => Ok (PyStr.lower s)
  | _ => Raise (AttributeError
                  ("'" ++ type_name v ++ "' object has no attribute 'lower'"))
  end.

Definition float_of_Z (z : Z) : spec_float :=
  binary_normalize prec emax z 0 false.

(** [v - 1] for a [v] with [isinstance(v, (int, float))]. *)
Definition minus_one (v : value) : value :=
  match v with
  | VBool b => VInt ((if b then 1 else 0) - 1)
  | VInt z => VInt (z - 1)
  | VFloat f => VFloat (SFsub prec emax f (float_of_Z 1))
  | _ => v
  end.

End PyValue.

(** ** Literals: [int(text)] and [float(text)] *)

Module PyNumber.

Definition is_digit (c : ascii) : bool :=
  let n := PyStr.code c in ((48 <=? n) && (n <=? 57))%N.

Definition digit (c : ascii) : Z := Z.of_N (PyStr.code c) - 48.

(** The rest of a [digitpart ::= digit (["_"] digit)*] once a digit has been
    read: the value so far, the number of digits read, the text left. *)
Fixpoint digits_loop (s : string) (acc : Z) (cnt : Z) : Z * Z * string :=
  match s with
  | EmptyString => (acc, cnt, s)
  | String c r =>
      if is_digit c then digits_loop r (acc * 10 + digit c) (cnt + 1)
      else if (c =? "_")%char then
        match r with
        | String c' r' =>
            if is_digit c'
            then digits_loop r' (acc * 10 + digit c') (cnt + 1)
            else (acc, cnt, s)
        | EmptyString => (acc, cnt, s)
        end
      else (acc, cnt, s)
  end.

Definition digitpart (s : string) (acc : Z) : option (Z * Z * string) :=
  match s with
  | String c r =>
      if is_digit c then Some (digits_loop r (acc * 10 + digit c) 1)
      else None
  | EmptyString => None
  end.

(** An optional sign: [true] for a minus. *)
Definition sign (s : string) : bool * string :=
  match s with
  | String c r =>
      if (c =? "-")%char then (true, r)
      else if (c =? "+")%char then (false, r)
      else (false, s)
  | EmptyString => (false, s)
  end.

(** [int(text)] in base 10; [None] stands for [ValueError].  A token holds
    no white space, so the stripping [int] does first is the identity. *)
Definition int_of_str (s : string) : option Z :=
  let '(neg, s1) := sign s in
  match digitpart s1 0 with
  | Some (v, _, EmptyString) => Some (if neg then - v else v)
  | _ => None
  end.

(** The binary64 number nearest to [m * 10 ^ e], ties to even. *)
Definition float_of_decimal (neg : bool) (m e : Z) : spec_float :=
  if m =? 0 then S754_zero neg
  else if 0 <=? e then
    binary_normalize PyValue.prec PyValue.emax
      ((if neg then - m else m) * 10 ^ e) 0 neg
  else
    let '(q, e', l) :=
      SFdiv_core_binary PyValue.prec PyValue.emax m 0 (10 ^ (- e)) 0 in
    binary_round_aux PyValue.prec PyValue.emax neg q e' l.

(** [exponent ::= ("e" | "E") [sign] digitpart], up to the end of the
    text; no exponent is the exponent 0. *)
Definition exponent (s : string) : option Z :=
  match s with
  | EmptyString => Some 0
  | String c r =>
      if ((c =? "e") || (c =? "E"))%char then
        let '(neg, r1) := sign r in
        match digitpart r1 0 with
        | Some (v, _, EmptyString) => Some (if neg then - v else v)
        | _ => None
        end
      else None
  end.

(** [number ::= [digitpart] "." digitpart | digitpart ["."]]: the digits
    read as one integer, the number of digits after the point, the text
    left. *)
Definition number (s : string) : option (Z * Z * string) :=
  match digitpart s 0 with
  | Some (m, _, String "." r) =>
      match digitpart r m with
      | Some (m', k, r') => Some (m', k, r')
      | None => Some (m, 0, r)
      end
  | Some (m, _, r) => Some (m, 0, r)
  | None =>
      match s with
      | String "." r => digitpart r 0
      | _ => None
      end
  end.

(** [float(text)]; [None] stands for [ValueError]. *)
Definition float_of_str (s : string) : option spec_float :=
  let '(neg, s1) := sign s in
  let w := PyStr.lower s1 in
  if ((w =? "inf") || (w =? "infinity"))%string then Some (S754_infinity neg)
  else if (w =? "nan")%string then Some S754_nan
  else
    '(m, k, r) ← number s1;
    x ← exponent r;
    Some (float_of_decimal neg m (x - k)).

(** The typing of a literal in [parse_condition]: a boolean word, else an
    [int], else a [float], else the text itself. *)
Definition literal (text : string) : value :=
  if (PyStr.lower text =? "true")%string then VBool true
  else if (PyStr.lower text =? "false")%string then VBool false
  else match int_of_str text with
       | Some z => VInt z
       | None =>
           match float_of_str text with
           | Some f => VFloat f
           | None => VStr text
           end
       end.

End PyNumber.

(** ** Attribute catalog *)

Inductive AttributeType : Type := INTEGER | FLOAT | BOOLEAN | STRING.

Record AttributeDefinition : Type := {
  name : string;
  attr_type : AttributeType;
  min_value : option value;
  max_value : option value;
  allowed_values : option (gset string)
}.

Record AttributeCatalog : Type := {
  attributes : gmap string AttributeDefinition
}.

Module Catalog.

(** [definition.min_value > definition.max_value] when both are set. *)
Definition min_above_max (d : AttributeDefinition) : result bool :=
  match min_value d, max_value d with
  | Some lo, Some hi => PyValue.gt lo hi
  | _, _ => Ok false
  end.

(** [not definition.allowed_values]: [None] or the empty set. *)
Definition no_allowed_values (d : AttributeDefinition) : bool :=
  match allowed_values d with
  | None => true
  | Some vs => bool_decide (vs = ∅)
  end.

(** [x is not None] *)
Definition is_set {A : Type} (x : option A) : bool :=
  match x with Some _ => true | None => false end.

Definition is_numeric (t : AttributeType) : bool :=
  match t with INTEGER | FLOAT => true | _ => false end.

(** [AttributeCatalog.add_attribute]: the catalog after the call, with what
    the call returned or raised. *)
Definition add_attribute (definition : AttributeDefinition)
    (self : AttributeCatalog) : result unit * AttributeCatalog :=
  match attributes self !! name definition with
  | Some _ =>
      (Raise (ValueError ("Attribute " ++ name definition ++ " already exists")),
       self)
  | None =>
      let checks : result unit :=
        bad <- (if is_numeric (attr_type definition)
                then min_above_max definition else Ok false) ;;
        if bad
        then Raise (ValueError "Min value cannot be greater than max value")
        else
        if match attr_type definition with STRING => true | _ => false end
           && no_allowed_values definition
        then Raise (ValueError "String attributes must have allowed values")
        else
        if match attr_type definition with BOOLEAN => true | _ => false end
           && (is_set (min_value definition)
               || is_set (max_value definition))
        then Raise (ValueError "Boolean attributes cannot have min/max values")
        else Ok tt in
      match checks with
      | Raise e => (Raise e, self)
      | Ok _ =>
          (Ok tt,
           {| attributes := <[name definition := definition]> (attributes self) |})
      end
  end.

(** The two range tests shared by the INTEGER and FLOAT branches. *)
Definition in_range (attr : AttributeDefinition) (v : value) : result bool :=
  below <- match min_value attr with
           | Some lo => PyValue.lt v lo
           | None => Ok false
           end ;;
  if below then Ok false
  else
    above <- match max_value attr with
             | Some hi => PyValue.gt v hi
             | None => Ok false
             end ;;
    if above then Ok false else Ok true.

Definition validate_value (self : AttributeCatalog) (attr_name : string)
    (v : value) : result bool :=
  match attributes self !! attr_name with
  | None => Raise (ValueError ("Unknown attribute: " ++ attr_name))
  | Some attr =>
      match attr_type attr with
      | INTEGER => if PyValue.is_int v then in_range attr v else Ok false
      | FLOAT => if PyValue.is_number v then in_range attr v else Ok false
      | BOOLEAN => Ok (PyValue.is_bool v)
      | STRING =>
          match v with
          | VStr s =>
              match allowed_values attr with
              | Some vs => Ok (bool_decide (s ∈ vs))
              | None =>
                  Raise (TypeError "argument of type 'NoneType' is not iterable")
              end
          | _ => Ok false
          end
      end
  end.

End Catalog.

(** ** Rules: the syntax tree and the decision tree *)

(** The two node classes of the syntax tree. *)
#[warnings="-register-all"]
Inductive ast : Type :=
| condition (attribute operator : string) (value : value) (invertion : bool)
| operation (operator : string) (children : list ast) (invertion : bool).

(** The two node classes of the decision tree. *)
Inductive dtree : Type :=
| decision (attribute operator : string) (value : value)
    (true_tree false_tree : dtree)
| result_node (value : bool).

Record Rule : Type := {
  rule_name : string;
  rule_str : string;
  rule_ast : ast;
  decision_tree : dtree
}.

(** A candidate [dict], in insertion order. *)
Definition candidate : Type := list (string * value).

Fixpoint candidate_get (c : candidate) (key : string) : option value :=
  match c with
  | [] => None
  | (k, v) :: c' => if (k =? key)%string then Some v else candidate_get c' key
  end.

Definition missing_attribute {A : Type} (attribute : string) : result A :=
  Raise (ValueError ("Missing attribute: " ++ attribute)).

(** The comparison shared by [condition.eval] and [decision.eval]: [None]
    when [operator] is none of the five, where neither method compares. *)
Definition compare_with (operator : string) (v literal : value)
  : option (result bool) :=
  if (operator =? "=")%string then
    Some (match literal with
          | VStr s =>
              l <- PyValue.lower v ;; Ok ((l =? PyStr.lower s)%string)
          | _ => Ok (PyValue.eq v literal)
          end)
  else if (operator =? "<")%string then Some (PyValue.lt v literal)
  else if (operator =? ">")%string then Some (PyValue.gt v literal)
  else if (operator =? "<=")%string then Some (PyValue.le v literal)
  else if (operator =? ">=")%string then Some (PyValue.ge v literal)
  else None.

Definition invert (invertion : bool) (r : bool) : bool :=
  if invertion then negb r else r.

(** [condition.eval] *)
Definition condition_eval (attribute operator : string) (literal : value)
    (invertion : bool) (c : candidate) : result bool :=
  match candidate_get c attribute with
  | None => missing_attribute attribute
  | Some v =>
      r <- match compare_with operator v literal with
           | Some r => r
           | None => Ok false
           end ;;
      Ok (invert invertion r)
  end.

(** [condition.eval] and [operation.eval]. *)
Fixpoint eval (node : ast) (c : candidate) : result bool :=
  match node with
  | condition attribute operator literal invertion =>
      condition_eval attribute operator literal invertion c
  | operation operator children invertion =>
      match children with
      | [] => Ok true
      | _ =>
          results <- map_result (fun child => eval child c) children ;;
          let r := if (operator =? "and")%string
                   then forallb id results else existsb id results in
          Ok (invert invertion r)
      end
  end.

(** [decision.eval]: the subtree chosen, [None] when the operator is none of
    the five and the method falls off its end. *)
Definition decision_eval (attribute operator : string) (literal : value)
    (true_tree false_tree : dtree) (c : candidate) : result (option dtree) :=
  match candidate_get c attribute with
  | None => missing_attribute attribute
  | Some v =>
      match compare_with operator v literal with
      | Some r => b <- r ;; Ok (Some (if b then true_tree else false_tree))
      | None => Ok None
      end
  end.

(** The loop of [RuleEngine.evaluate] from a node of the decision tree. *)
Fixpoint walk (current_node : dtree) (c : candidate) : result bool :=
  match current_node with
  | result_node v => Ok v
  | decision attribute operator literal true_tree false_tree =>
      match candidate_get c attribute with
      | None => missing_attribute attribute
      | Some v =>
          match compare_with operator v literal with
          | Some r => b <- r ;; walk (if b then true_tree else false_tree) c
          | None =>
              Raise (AttributeError "'NoneType' object has no attribute 'eval'")
          end
      end
  end.

(** ** Decision-tree compiler *)

Module Compiler.

Definition triple : Type := string * string * value.

(** Equality of two tuples, as the [set] of triples sees it.  (Two literals
    that are NaN are different objects in two conditions, and unequal.) *)
Definition triple_eq (a b : triple) : bool :=
  let '(a1, a2, a3) := a in
  let '(b1, b2, b3) := b in
  (a1 =? b1)%string && (a2 =? b2)%string && PyValue.eq a3 b3.

Definition set_add (t : triple) (conditions : list triple) : list triple :=
  if existsb (triple_eq t) conditions then conditions else conditions ++ [t].

Definition set_update (conditions more : list triple) : list triple :=
  fold_left (fun acc t => set_add t acc) more conditions.

Fixpoint find_conditions (node : ast) : list triple :=
  match node with
  | condition attribute operator literal _ =>
      set_add (attribute, operator, literal) []
  | operation _ children _ =>
      fold_left (fun conditions child =>
                   set_update conditions (find_conditions child))
        children []
  end.

(** The first argument of [create_decision_tree]: the syntax tree on the
    first call, a [bool] on the recursive ones. *)
Inductive node : Type :=
| Tree (a : ast)
| Bool (b : bool).

Definition node_eval (n : node) (c : candidate) : result bool :=
  match n with
  | Tree a => eval a c
  | Bool _ => Raise (AttributeError "'bool' object has no attribute 'eval'")
  end.

(** [create_decision_tree]; [remaining_conditions.pop()] takes the head of
    the list, and the two recursive calls get the rest. *)
Fixpoint create_decision_tree (n : node) (remaining_conditions : list triple)
  : result dtree :=
  match remaining_conditions with
  | [] =>
      match n with
      | Bool b => Ok (result_node b)
      | Tree a => r <- eval a [] ;; Ok (result_node r)
      end
  | (attr, op, val) :: new_conditions =>
      let true_candidate := [(attr, val)] in
      let false_candidate :=
        [(attr, if PyValue.is_number val then PyValue.minus_one val else val)] in
      true_result <- node_eval n true_candidate ;;
      false_result <- node_eval n false_candidate ;;
      true_tree <- create_decision_tree (Bool true_result) new_conditions ;;
      false_tree <- create_decision_tree (Bool false_result) new_conditions ;;
      Ok (decision attr op val true_tree false_tree)
  end.

Definition transform_to_decision_tree (a : ast) : result dtree :=
  create_decision_tree (Tree a) (find_conditions a).

End Compiler.

(** ** Tokenizer and parser *)

Module RuleParser.

Definition VALID_OPERATORS : list string := ["="; "<"; ">"; "<="; ">="].
Definition VALID_LOGICAL_OPERATORS : list string := ["AND"; "OR"; "NOT"].

Definition member (s : string) (l : list string) : bool :=
  existsb (String.eqb s) l.

(** The running parenthesis count of [validate_tokens]: [pos] is the index
    of the head of [tokens], [paren_count] the count before it. *)
Fixpoint check_parens (tokens : list string) (pos : nat) (paren_count : Z)
  : result Z :=
  match tokens with
  | [] => Ok paren_count
  | token :: rest =>
      let paren_count :=
        if (token =? "(")%string then paren_count + 1
        else if (token =? ")")%string then paren_count - 1
        else paren_count in
      if paren_count <? 0
      then Raise (ParseError "Unmatched closing parenthesis" pos token)
      else check_parens rest (S pos) paren_count
  end.

Definition validate_tokens (tokens : list string) : result unit :=
  match tokens with
  | [] => Raise (ParseError "Empty rule string" 0 "")
  | _ =>
      paren_count <- check_parens tokens 0 0 ;;
      if 0 <? paren_count
      then Raise (ParseError "Unmatched opening parenthesis"
                    (length tokens - 1)%nat "")
      else Ok tt
  end.

(** [re.sub(r'([()])', r' \1 ', rule)] *)
Fixpoint space_parens (s : string) : string :=
  match s with
  | EmptyString => EmptyString
  | String c r =>
      if (c =? "(")%char || (c =? ")")%char
      then String " " (String c (String " " (space_parens r)))
      else String c (space_parens r)
  end.

(** [re.sub(r'(<=|>=|=|<|>)', r' \1 ', rule)]: at each position the
    alternatives are tried in the order written, so a two-character
    operator wins over its first character. *)
Definition is_cmp_char (c : ascii) : bool :=
  ((c =? "=") || (c =? "<") || (c =? ">"))%char.

Fixpoint space_operators (s : string) : string :=
  match s with
  | EmptyString => EmptyString
  | String c r =>
      let one :=
        if is_cmp_char c
        then String " " (String c (String " " (space_operators r)))
        else String c (space_operators r) in
      match r with
      | String c' r' =>
          if ((c =? "<") || (c =? ">"))%char && (c' =? "=")%char
          then String " " (String c (String c' (String " "
                 (space_operators r'))))
          else one
      | EmptyString => one
      end
  end.

(** [[t for t in rule.split() if t.strip()]] after the two substitutions. *)
Definition tokens_of (rule : string) : list string :=
  filter (fun t => PyStr.truthy (PyStr.strip PyStr.isspace t) = true)
    (PyStr.split (space_operators (space_parens rule))).

(** The source first rejects a [rule] that is not a [str]; a [string] always
    is one. *)
Definition tokenize_rule (rule : string) : result (list string) :=
  if negb (PyStr.truthy (PyStr.strip PyStr.isspace rule))
  then Raise (ParseError "Empty rule string" 0 "")
  else
    let tokens := tokens_of rule in
    validate_tokens tokens ;;;
    Ok tokens.

(** [RuleParser.parse_condition]: the condition and the position after it. *)
Definition parse_condition (tokens : list string) (pos : nat)
  : result (ast * nat) :=
  match tokens !! pos with
  | None =>
      Raise (ParseError "Unexpected end of rule while parsing condition" pos "")
  | Some first =>
      let after_not : result (bool * nat) :=
        if (first =? "NOT")%string then
          if (length tokens <=? S pos)%nat
          then Raise (ParseError "Unexpected end of rule after NOT operator"
                        (S pos) "")
          else Ok (true, S pos)
        else Ok (false, pos) in
      not_and_pos <- after_not ;;
      let '(invertion, pos) := not_and_pos in
      match tokens !! pos with
      | None => Raise (ParseError "Missing attribute in condition" pos "")
      | Some attribute =>
          if member attribute VALID_OPERATORS
             || member attribute VALID_LOGICAL_OPERATORS
          then Raise (ParseError "Invalid attribute name" pos attribute)
          else
            let pos := S pos in
            match tokens !! pos with
            | None =>
                Raise (ParseError ("Missing operator after attribute '"
                                   ++ attribute ++ "'") pos "")
            | Some operator =>
                if negb (member operator VALID_OPERATORS)
                then Raise (ParseError "Invalid comparison operator" pos operator)
                else
                  let pos := S pos in
                  match tokens !! pos with
                  | None =>
                      Raise (ParseError ("Missing value after operator '"
                                         ++ operator ++ "'") pos "")
                  | Some text =>
                      let text :=
                        PyStr.strip (fun c => (c =? "'")%char) text in
                      Ok (condition attribute operator
                            (PyNumber.literal text) invertion, S pos)
                  end
            end
      end
  end.

(** The [operation] under construction in [parse_expression]: its
    connective and the children added so far.  The parser never sets its
    negation flag. *)
Definition current : Type := string * list ast.

Definition to_ast (op : current) : ast := operation op.1 op.2 false.

(** [current_operation.add(child)] *)
Definition add (op : current) (child : ast) : current := (op.1, (op.2 ++ [child])%list).

(** The test that ends an iteration of the loop of [parse_expression], then
    the next iteration [next]. *)
Definition end_of_iteration (tokens : list string) (pos : nat)
    (current_operation : option current)
    (next : nat -> option current -> option (result (ast * nat)))
  : option (result (ast * nat)) :=
  match current_operation with
  | Some op =>
      if (length tokens <=? pos)%nat then Some (Ok (to_ast op, pos))
      else next pos current_operation
  | None => next pos current_operation
  end.

(** The [while] loop of [parse_expression] at [pos], with the nested call
    for a parenthesis.  Every iteration and every nested call moves to a
    later position; [fuel] bounds their number, and [None] is its
    exhaustion, which [parse_loop_fuel] excludes for the fuel that
    [parse_expression] gives. *)
Fixpoint parse_loop (fuel : nat) (tokens : list string) (pos : nat)
    (current_operation : option current) : option (result (ast * nat)) :=
  match fuel with
  | O => None
  | S fuel =>
      match tokens !! pos with
      | None => Some (Raise (ParseError "Unexpected end of rule" pos ""))
      | Some token =>
          if (token =? "(")%string then
            let nested :=
              if (length tokens <=? S pos)%nat
              then Some (Raise (ParseError "Unexpected end of rule" (S pos) ""))
              else parse_loop fuel tokens (S pos) None in
            match nested with
            | None => None
            | Some (Raise e) => Some (Raise e)
            | Some (Ok (sub_expr, new_pos)) =>
                if match tokens !! new_pos with
                   | Some t => negb (t =? ")")%string
                   | None => true
                   end
                then Some (Raise (ParseError "Missing closing parenthesis"
                                    new_pos ""))
                else
                  match current_operation with
                  | Some op =>
                      end_of_iteration tokens (S new_pos)
                        (Some (add op sub_expr)) (parse_loop fuel tokens)
                  | None => Some (Ok (sub_expr, S new_pos))
                  end
            end
          else if (token =? ")")%string then
            match current_operation with
            | None =>
                Some (Raise (ParseError "Unexpected closing parenthesis" pos ""))
            | Some op => Some (Ok (to_ast op, pos))
            end
          else if member token ["AND"; "OR"] then
            let current_operation :=
              match current_operation with
              | None => (PyStr.lower token, [])
              | Some op =>
                  if negb (op.1 =? PyStr.lower token)%string
                  then (PyStr.lower token, [to_ast op])
                  else op
              end in
            end_of_iteration tokens (S pos) (Some current_operation)
              (parse_loop fuel tokens)
          else
            match parse_condition tokens pos with
            | Raise e => Some (Raise e)
            | Ok (cond, new_pos) =>
                match current_operation with
                | Some op =>
                    end_of_iteration tokens new_pos (Some (add op cond))
                      (parse_loop fuel tokens)
                | None => Some (Ok (cond, new_pos))
                end
            end
      end
  end.

(** [RuleParser.parse_expression].  The fuel is one more than the number of
    tokens, so the loop never exhausts it and the last branch is never taken
    ([parse_expression_total]). *)
Definition parse_expression (tokens : list string) (start : nat)
  : result (ast * nat) :=
  if (length tokens <=? start)%nat
  then Raise (ParseError "Unexpected end of rule" start "")
  else
    match parse_loop (S (length tokens)) tokens start None with
    | Some r => r
    | None => Raise (ParseError "Unexpected end of rule" start "")
    end.

End RuleParser.

(** [parse_rule]: an exception other than [ParseError] is turned into one. *)
Definition parse_rule (rule_str : string) : result ast :=
  let parsed :=
    tokens <- RuleParser.tokenize_rule rule_str ;;
    parsed <- RuleParser.parse_expression tokens 0 ;;
    let '(a, pos) := parsed in
    match tokens !! pos with
    | Some token =>
        Raise (ParseError "Unexpected tokens after valid expression" pos token)
    | None => Ok a
    end in
  match parsed with
  | Ok a => Ok a
  | Raise (ParseError m p t) => Raise (ParseError m p t)
  | Raise (ValueError m) | Raise (AttributeError m) | Raise (TypeError m) =>
      Raise (ParseError ("Unexpected error while parsing rule: " ++ m) 0 "")
  | Raise (InvalidValue a _) =>
      Raise (ParseError ("Unexpected error while parsing rule: "
                         ++ "Invalid value for attribute " ++ a) 0 "")
  end.

(** ** Rule engine *)

Record RuleEngine : Type := {
  catalog : AttributeCatalog;
  rules : gmap string Rule
}.

(** A method of the engine: what it returns or raises, and the engine it
    leaves. *)
Definition M (A : Type) : Type := RuleEngine -> result A * RuleEngine.

Module Engine.

Definition ret {A : Type} (a : A) : M A := fun self => (Ok a, self).

Definition raise {A : Type} (e : exn) : M A := fun self => (Raise e, self).

(** A computation that does not touch the engine. *)
Definition lift {A : Type} (r : result A) : M A := fun self => (r, self).

Definition mbind {A B : Type} (m : M A) (k : A -> M B) : M B :=
  fun self =>
    match m self with
    | (Ok a, self') => k a self'
    | (Raise e, self') => (Raise e, self')
    end.

Definition get_rules : M (gmap string Rule) := fun self => (Ok (rules self), self).

Definition get_catalog : M AttributeCatalog :=
  fun self => (Ok (catalog self), self).

Definition put_rules (rs : gmap string Rule) : M unit :=
  fun self => (Ok tt, {| catalog := catalog self; rules := rs |}).

Declare Scope engine_scope.
Delimit Scope engine_scope with engine.
Notation "x <~ m ;; k" := (mbind m (fun x => k))
  (at level 100, m at next level, right associativity) : engine_scope.
Notation "m ;;~ k" := (mbind m (fun _ => k))
  (at level 100, right associativity) : engine_scope.
Local Open Scope engine_scope.

(** [self.catalog.add_attribute(definition)] on the catalog the engine
    refers to. *)
Definition add_attribute (definition : AttributeDefinition) : M unit :=
  fun self =>
    let '(r, cat) := Catalog.add_attribute definition (catalog self) in
    (r, {| catalog := cat; rules := rules self |}).

(** The local function [validate_attributes] of [create_rule]. *)
Fixpoint validate_attributes (cat : AttributeCatalog) (node : ast)
  : result unit :=
  match node with
  | condition attribute _ _ _ =>
      match attributes cat !! attribute with
      | Some _ => Ok tt
      | None => Raise (ValueError ("Unknown attribute in rule: " ++ attribute))
      end
  | operation _ children _ =>
      map_result (validate_attributes cat) children ;;; Ok tt
  end.

Definition create_rule (name rule_str : string) : M Rule :=
  rs <~ get_rules ;;
  match rs !! name with
  | Some _ => raise (ValueError ("Rule " ++ name ++ " already exists"))
  | None =>
      a <~ lift (parse_rule rule_str) ;;
      cat <~ get_catalog ;;
      lift (validate_attributes cat a) ;;~
      tree <~ lift (Compiler.transform_to_decision_tree a) ;;
      let rule := {| rule_name := name; rule_str := rule_str;
                     rule_ast := a; decision_tree := tree |} in
      rs <~ get_rules ;;
      put_rules (<[name := rule]> rs) ;;~
      ret rule
  end.

Definition modify_rule (name new_rule_str : string) : M Rule :=
  rs <~ get_rules ;;
  match rs !! name with
  | None => raise (ValueError ("Rule " ++ name ++ " does not exist"))
  | Some _ =>
      put_rules (delete name rs) ;;~
      create_rule name new_rule_str
  end.

(** The names of [rule_names] without repetition: the roots of two rules
    are two objects, those of one rule are one, and the children of an
    [operation] are a set of objects. *)
Fixpoint distinct (names : list string) : list string :=
  match names with
  | [] => []
  | n :: ns => n :: filter (fun m => m ≠ n) (distinct ns)
  end.

(** The loop of [combine_rules] over [rule_names]. *)
Definition lookup_rules (rs : gmap string Rule) (rule_names : list string)
  : result (list Rule) :=
  map_result (fun rule_name =>
                match rs !! rule_name with
                | Some r => Ok r
                | None => Raise (ValueError ("Rule " ++ rule_name
                                             ++ " does not exist"))
                end) rule_names.

Definition combine_rules (name : string) (rule_names : list string)
    (operator : string) : M Rule :=
  if negb (RuleParser.member (PyStr.lower operator) ["and"; "or"])
  then raise (ValueError "Operator must be 'and' or 'or'")
  else
    rs <~ get_rules ;;
    match rs !! name with
    | Some _ => raise (ValueError ("Rule " ++ name ++ " already exists"))
    | None =>
        lift (lookup_rules rs rule_names) ;;~
        members <~ lift (lookup_rules rs (distinct rule_names)) ;;
        let combined_operation :=
          operation (PyStr.lower operator) (rule_ast <$> members) false in
        tree <~ lift (Compiler.transform_to_decision_tree combined_operation) ;;
        sources <~ lift (lookup_rules rs rule_names) ;;
        let rule_str :=
          PyStr.join (" " ++ operator ++ " ")
            ((fun r => "(" ++ rule_str r ++ ")") <$> sources) in
        let rule := {| rule_name := name; rule_str := rule_str;
                       rule_ast := combined_operation;
                       decision_tree := tree |} in
        rs <~ get_rules ;;
        put_rules (<[name := rule]> rs) ;;~
        ret rule
    end.

(** The validation loop of [evaluate] over [candidate.items()]. *)
Fixpoint validate_candidate (cat : AttributeCatalog) (items : candidate)
  : result unit :=
  match items with
  | [] => Ok tt
  | (attr_name, v) :: items' =>
      match attributes cat !! attr_name with
      | Some _ =>
          ok <- Catalog.validate_value cat attr_name v ;;
          if ok then validate_candidate cat items'
          else Raise (InvalidValue attr_name v)
      | None => validate_candidate cat items'
      end
  end.

Definition evaluate (rule_name : string) (c : candidate) : M bool :=
  rs <~ get_rules ;;
  match rs !! rule_name with
  | None => raise (ValueError ("Rule " ++ rule_name ++ " does not exist"))
  | Some rule =>
      cat <~ get_catalog ;;
      lift (validate_candidate cat c) ;;~
      lift (walk (decision_tree rule) c)
  end.

End Engine.

(** ** Notions used to state the properties *)

(** Blank or white-space-only text. *)
Fixpoint all_space (s : string) : bool :=
  match s with
  | EmptyString => true
  | String c r => PyStr.isspace c && all_space r
  end.

(** The number of opening parentheses of [tokens] minus the number of closing
    ones. *)
Definition paren_delta (token : string) : Z :=
  if (token =? "(")%string then 1
  else if (token =? ")")%string then -1
  else 0.

Fixpoint depth (tokens : list string) : Z :=
  match tokens with
  | [] => 0
  | token :: rest => paren_delta token + depth rest
  end.

(** No closing parenthesis among the first [n] tokens lacks its opening one. *)
Definition prefix_ok (tokens : list string) (n : nat) : bool :=
  forallb (fun q => 0 <=? depth (take (S q) tokens)) (seq 0 n).

(** The token at [p] is a stray closing parenthesis, the first of [tokens]. *)
Definition stray_at (tokens : list string) (p : nat) : bool :=
  prefix_ok tokens p && (depth (take (S p) tokens) <?  0).

(** Every opening parenthesis is closed before the end, but some are not. *)
Definition unclosed (tokens : list string) : bool :=
  prefix_ok tokens (length tokens) && (0 <? depth tokens).

(** What [create_rule] computes before it stores the rule. *)
Definition build_rule (cat : AttributeCatalog) (name rule_str : string)
  : result Rule :=
  a <- parse_rule rule_str ;;
  Engine.validate_attributes cat a ;;;
  tree <- Compiler.transform_to_decision_tree a ;;
  Ok {| rule_name := name; rule_str := rule_str;
        rule_ast := a; decision_tree := tree |}.

Definition store (rule : Rule) (self : RuleEngine) : RuleEngine :=
  {| catalog := catalog self;
     rules := <[rule_name rule := rule]> (rules self) |}.

Definition forget (name : string) (self : RuleEngine) : RuleEngine :=
  {| catalog := catalog self; rules := delete name (rules self) |}.

(** The engines the examples start from. *)

Definition age_attribute : AttributeDefinition :=
  {| name := "age"; attr_type := INTEGER; min_value := None;
     max_value := None; allowed_values := None |}.

Definition country_attribute : AttributeDefinition :=
  {| name := "country"; attr_type := STRING; min_value := None;
     max_value := None; allowed_values := Some {[ "US"; "CA" ]} |}.

(** An engine whose catalog holds [age] and [country], with no rule. *)
Definition engine_empty : RuleEngine :=
  {| catalog := {| attributes := {[ "age" := age_attribute;
                                    "country" := country_attribute ]} |};
     rules := ∅ |}.

(** The same engine after [create_rule("adult", "age >= 18")]. *)
Definition engine_adult : RuleEngine :=
  (Engine.create_rule "adult" "age >= 18" engine_empty).2.

(** ... and after [create_rule("senior", "age >= 65")]. *)
Definition engine_two_rules : RuleEngine :=
  (Engine.create_rule "senior" "age >= 65" engine_adult).2.

(** ** Notions used to state the further properties *)

(** The parentheses of [tokens] match. *)
Definition balanced (tokens : list string) : bool :=
  prefix_ok tokens (length tokens) && (depth tokens =? 0).

(** What the parser can build: a condition whose operator is one of the five
    and whose attribute is no operator or keyword, an [operation] whose
    connective is [and] or [or] and whose negation flag is off. *)
Fixpoint parsed_ok (a : ast) : bool :=
  match a with
  | condition attribute operator _ _ =>
      RuleParser.member operator RuleParser.VALID_OPERATORS
      && negb (RuleParser.member attribute RuleParser.VALID_OPERATORS
               || RuleParser.member attribute RuleParser.VALID_LOGICAL_OPERATORS)
  | operation operator children invertion =>
      RuleParser.member operator ["and"; "or"]
      && negb invertion
      && forallb parsed_ok children
  end.

(** The attribute names of the conditions of a syntax tree, left to right. *)
Fixpoint attributes_of (a : ast) : list string :=
  match a with
  | condition attribute _ _ _ => [attribute]
  | operation _ children _ => concat (map attributes_of children)
  end.





(** [all(results)] or [any(results)] of two results, by the connective of
    an [operation]. *)
Definition connect (operator : string) (x y : bool) : bool :=
  if (operator =? "and")%string then x && y else x || y.

(** What [combine_rules] computes before it stores the rule. *)
Definition build_combined (rs : gmap string Rule) (name : string)
    (rule_names : list string) (operator : string) : result Rule :=
  Engine.lookup_rules rs rule_names ;;;
  members <- Engine.lookup_rules rs (Engine.distinct rule_names) ;;
  let combined_operation :=
    operation (PyStr.lower operator) (rule_ast <$> members) false in
  tree <- Compiler.transform_to_decision_tree combined_operation ;;
  sources <- Engine.lookup_rules rs rule_names ;;
  Ok {| rule_name := name;
        rule_str := PyStr.join (" " ++ operator ++ " ")
                      ((fun r => "(" ++ rule_str r ++ ")") <$> sources);
        rule_ast := combined_operation;
        decision_tree := tree |}.

(** ** Request handlers of [api/evaluation.py]

    The handlers work on the engine of the process, which is [self] here.
    A handler returns its response, raises an [HTTPException], or lets an
    exception through that none of its [except] clauses catches.  Where the
    source prints an exception into the [detail] of an [HTTPException], the
    exception is kept beside the text that precedes it. *)

Module Api.

Inductive outcome (A : Type) : Type :=
| Returns (response : A)
| HTTPException (status_code : nat) (detail : string) (cause : option exn)
| Propagates (e : exn).
Arguments Returns {A} response.
Arguments HTTPException {A} status_code detail cause.
Arguments Propagates {A} e.

(** [except ValueError]: the two [ValueError]s of the core; [ParseError],
    [AttributeError] and [TypeError] are no subclasses of it. *)
Definition is_ValueError (e : exn) : bool :=
  match e with
  | ValueError _ | InvalidValue _ _ => true
  | _ => false
  end.

Record BatchResultItem : Type := {
  item_index : nat;
  item_result : bool;
  item_error : option exn
}.

Record BatchEvaluationResult : Type := {
  batch_rule_name : string;
  batch_results : list BatchResultItem
}.

(** The loop of [batch_evaluate] from the candidate of index [i], with the
    [results] appended so far. *)
Fixpoint batch_loop (rule_name : string) (i : nat) (candidates : list candidate)
    (results : list BatchResultItem) (self : RuleEngine)
  : outcome (list BatchResultItem) * RuleEngine :=
  match candidates with
  | [] => (Returns results, self)
  | c :: rest =>
      match Engine.evaluate rule_name c self with
      | (Ok r, self') =>
          batch_loop rule_name (S i) rest
            (results ++ [{| item_index := i; item_result := r;
                            item_error := None |}]) self'
      | (Raise e, self') =>
          if is_ValueError e then
            batch_loop rule_name (S i) rest
              (results ++ [{| item_index := i; item_result := false;
                              item_error := Some e |}]) self'
          else (Propagates e, self')
      end
  end.

Definition batch_evaluate (rule_name : string) (candidates : list candidate)
    (self : RuleEngine) : outcome BatchEvaluationResult * RuleEngine :=
  match rules self !! rule_name with
  | None => (HTTPException 404 "Rule not found" None, self)
  | Some _ =>
      match batch_loop rule_name 0 candidates [] self with
      | (Returns results, self') =>
          (Returns {| batch_rule_name := rule_name;
                      batch_results := results |}, self')
      | (HTTPException s d c, self') => (HTTPException s d c, self')
      | (Propagates e, self') => (Propagates e, self')
      end
  end.

(** The loop of [evaluate_multi_rules], with the [results] dictionary so
    far. *)
Fixpoint multi_loop (rule_names : list string) (c : candidate)
    (results : gmap string bool) (self : RuleEngine)
  : outcome (gmap string bool) * RuleEngine :=
  match rule_names with
  | [] => (Returns results, self)
  | rule_name :: rest =>
      match rules self !! rule_name with
      | None =>
          (HTTPException 404 ("Rule not found: " ++ rule_name) None, self)
      | Some _ =>
          match Engine.evaluate rule_name c self with
          | (Ok r, self') => multi_loop rest c (<[rule_name := r]> results) self'
          | (Raise e, self') =>
              if is_ValueError e then
                (HTTPException 400
                   ("Error evaluating rule '" ++ rule_name ++ "': ") (Some e),
                 self')
              else (Propagates e, self')
          end
      end
  end.

Definition evaluate_multi_rules (rule_names : list string) (c : candidate)
    (self : RuleEngine) : outcome (gmap string bool) * RuleEngine :=
  multi_loop rule_names c ∅ self.

End Api.

(** What [batch_evaluate] records for the candidate of index [i], from what
    [evaluate] gave. *)
Definition batch_item (i : nat) (r : result bool) : Api.BatchResultItem :=
  match r with
  | Ok b => {| Api.item_index := i; Api.item_result := b;
               Api.item_error := None |}
  | Raise e => {| Api.item_index := i; Api.item_result := false;
                  Api.item_error := Some e |}
  end.

(** [evaluate] returned, or raised a [ValueError]. *)
Definition settled (r : result bool) : bool :=
  match r with
  | Ok _ => true
  | Raise e => Api.is_ValueError e
  end.

(** The boolean [evaluate] returned, if it returned. *)
Definition returned (r : result bool) : option bool :=
  match r with
  | Ok b => Some b
  | Raise _ => None
  end.

(** The invariants of a stored definition: a String attribute has allowed
    values, a Boolean one has no bounds, and the bounds of a numeric one are
    in order. *)
Definition definition_ok (d : AttributeDefinition) : bool :=
  match attr_type d with
  | STRING => negb (Catalog.no_allowed_values d)
  | BOOLEAN => negb (Catalog.is_set (min_value d) || Catalog.is_set (max_value d))
  | INTEGER | FLOAT =>
      match Catalog.min_above_max d with
      | Ok false => true
      | _ => false
      end
  end.

(** Every definition of the catalog is filed under its own name and keeps
    the invariants. *)
Definition catalog_ok (cat : AttributeCatalog) : Prop :=
  forall k d, attributes cat !! k = Some d -> name d = k /\ definition_ok d = true.

(** The bounds that are set are numbers, as their type annotation says. *)
Definition bounds_numeric (d : AttributeDefinition) : bool :=
  match min_value d with Some lo => PyValue.is_number lo | None => true end
  && match max_value d with Some hi => PyValue.is_number hi | None => true end.

(** An integer against bounds that may be absent. *)
Definition within (lo hi : option Z) (z : Z) : bool :=
  match lo with Some l => l <=? z | None => true end
  && match hi with Some h => z <=? h | None => true end.

(** A scanner that reads the text once, from left to right: white space
    separates tokens and is dropped; a parenthesis is a token; [<=] and [>=]
    are tokens, and so is any other [=], [<] or [>]; every other character
    extends the word it stands in. *)
Definition is_paren (c : ascii) : bool := ((c =? "(") || (c =? ")"))%char.

Definition ends_word (c : ascii) : bool :=
  PyStr.isspace c || is_paren c || RuleParser.is_cmp_char c.

Fixpoint scan (s : string) : list string :=
  match s with
  | EmptyString => []
  | String c r =>
      let single := String c EmptyString in
      if PyStr.isspace c then scan r
      else if is_paren c then single :: scan r
      else if RuleParser.is_cmp_char c then
        match r with
        | String c' r' =>
            if ((c =? "<") || (c =? ">"))%char && (c' =? "=")%char
            then String c (String c' EmptyString) :: scan r'
            else single :: scan r
        | EmptyString => [single]
        end
      else
        match r with
        | String c' _ =>
            if ends_word c' then single :: scan r
            else match scan r with
                 | t :: ts => String c t :: ts
                 | [] => [single]
                 end
        | EmptyString => [single]
        end
  end.

(** * Properties *)

(** ** The front end on a few texts *)

Example tokenize_without_spaces :
  RuleParser.tokenize_rule "(age>=18) AND country = 'US'"
  = Ok ["("; "age"; ">="; "18"; ")"; "AND"; "country"; "="; "'US'"].
Proof. vm_compute. reflexivity. Qed.

Example literal_int : PyNumber.literal "-1_000" = VInt (-1000).
Proof. vm_compute. reflexivity. Qed.

Example literal_bool : PyNumber.literal "TRUE" = VBool true.
Proof. vm_compute. reflexivity. Qed.

Example literal_str : PyNumber.literal "1_" = VStr "1_".
Proof. vm_compute. reflexivity. Qed.

Example literal_float_tenth :
  PyNumber.literal "0.1" = VFloat (S754_finite false 7205759403792794 (-56)).
Proof. vm_compute. reflexivity. Qed.

Example literal_float_rounds_to_even :
  PyNumber.literal "9007199254740993.0"
  = VFloat (S754_finite false 4503599627370496 1).
Proof. vm_compute. reflexivity. Qed.

Example literal_float_overflow :
  PyNumber.literal "1e400" = VFloat (S754_infinity false).
Proof. vm_compute. reflexivity. Qed.

Example literal_float_subnormal :
  PyNumber.literal "5e-324" = VFloat (S754_finite false 1 (-1074)).
Proof. vm_compute. reflexivity. Qed.

(** ** The parser is total *)

Section ParserFuel.

Import RuleParser.

#[local] Arguments end_of_iteration : simpl never.
#[local] Arguments member : simpl never.

Lemma parse_condition_pos tokens pos cond new_pos :
  parse_condition tokens pos = Ok (cond, new_pos) -> (pos < new_pos)%nat.
Proof.
  unfold parse_condition. intros H.
  repeat (case_match; simplify_eq; simpl in *; try done); lia.
Qed.

Lemma end_of_iteration_pos tokens pos cur next a p :
  (forall pos' cur', next pos' cur' = Some (Ok (a, p)) -> (pos' <= p)%nat) ->
  end_of_iteration tokens pos cur next = Some (Ok (a, p)) -> (pos <= p)%nat.
Proof.
  unfold end_of_iteration. intros Hnext H.
  repeat (case_match; simplify_eq; try done); eauto.
Qed.

(** A successful parse ends at or after the position it started from. *)
Lemma parse_loop_pos fuel tokens : forall pos cur a p,
  parse_loop fuel tokens pos cur = Some (Ok (a, p)) -> (pos <= p)%nat.
Proof.
  induction fuel as [|fuel IH]; intros pos cur a p H; [done|].
  simpl in H.
  repeat (case_match; simplify_eq; try done);
    try match goal with
        | H : end_of_iteration _ _ _ _ = Some _ |- _ =>
            apply end_of_iteration_pos in H; [|by eauto]
        end;
    repeat match goal with
           | H : parse_loop fuel _ _ _ = Some (Ok _) |- _ => apply IH in H
           | H : parse_condition _ _ = Ok _ |- _ => apply parse_condition_pos in H
           end;
    lia.
Qed.

Lemma end_of_iteration_fuel tokens pos cur next :
  (forall cur', (pos < length tokens)%nat -> is_Some (next pos cur')) ->
  is_Some cur ->
  is_Some (end_of_iteration tokens pos cur next).
Proof.
  unfold end_of_iteration. intros Hnext [op ->].
  case_match; [done|]. apply Hnext. by apply Nat.leb_gt.
Qed.

(** Fuel above the number of tokens left is never exhausted. *)
Lemma parse_loop_fuel fuel tokens : forall pos cur,
  (length tokens - pos < fuel)%nat ->
  is_Some (parse_loop fuel tokens pos cur).
Proof.
  induction fuel as [|fuel IH]; intros pos cur Hfuel; [lia|].
  simpl.
  destruct (tokens !! pos) as [token|] eqn:Htok; [|done].
  apply lookup_lt_Some in Htok.
  destruct (token =? "(")%string.
  - destruct (length tokens <=? S pos)%nat eqn:Hlen.
    { done. }
    apply Nat.leb_gt in Hlen.
    destruct (IH (S pos) None) as [[[sub_expr new_pos]|e] Hnested]; [lia| |].
    + rewrite Hnested. apply parse_loop_pos in Hnested.
      case_match; [done|]. destruct cur; [|done].
      apply end_of_iteration_fuel; [|done]. intros; apply IH; lia.
    + by rewrite Hnested.
  - destruct (token =? ")")%string; [by destruct cur|].
    destruct (member token ["AND"; "OR"]).
    + apply end_of_iteration_fuel; [|done]. intros; apply IH; lia.
    + destruct (parse_condition tokens pos) as [[cond new_pos]|e] eqn:Hcond;
        [|done].
      apply parse_condition_pos in Hcond. destruct cur; [|done].
      apply end_of_iteration_fuel; [|done]. intros; apply IH; lia.
Qed.

(** [parse_expression] is the loop itself: its fuel always suffices. *)
Lemma parse_expression_total tokens start :
  (start < length tokens)%nat ->
  parse_loop (S (length tokens)) tokens start None
  = Some (parse_expression tokens start).
Proof.
  intros Hlt. unfold parse_expression.
  destruct (length tokens <=? start)%nat eqn:Hlen.
  { apply Nat.leb_le in Hlen. lia. }
  destruct (parse_loop_fuel (S (length tokens)) tokens start None) as [r Hr];
    [lia|].
  by rewrite Hr.
Qed.

End ParserFuel.

(** ** The tokenizer *)

Section Tokenizer.

Import RuleParser.

Lemma isspace_not_special c :
  PyStr.isspace c = true ->
  (c =? "(")%char = false /\ (c =? ")")%char = false /\ is_cmp_char c = false.
Proof. destruct c as [[] [] [] [] [] [] [] []]; vm_compute; intuition congruence. Qed.

Lemma lstrip_all_space s : all_space s = true -> PyStr.lstrip PyStr.isspace s = "".
Proof.
  induction s as [|c r IH]; simpl; [done|].
  intros [Hc Hr]%andb_true_iff. rewrite Hc. auto.
Qed.

Lemma rstrip_empty p s :
  PyStr.rstrip p s = "" -> forall c r, s = String c r -> p c = true /\ PyStr.rstrip p r = "".
Proof.
  intros H c r ->. simpl in H.
  destruct (PyStr.rstrip p r); [|done]. by destruct (p c).
Qed.

Lemma rstrip_all_space s :
  PyStr.rstrip PyStr.isspace s = "" -> all_space s = true.
Proof.
  induction s as [|c r IH]; [done|]. intros H.
  destruct (rstrip_empty _ _ H c r eq_refl) as [Hc Hr].
  simpl. rewrite Hc. auto.
Qed.

Lemma lstrip_rest_all_space s :
  all_space (PyStr.lstrip PyStr.isspace s) = true -> all_space s = true.
Proof.
  induction s as [|c r IH]; [done|]. simpl.
  destruct (PyStr.isspace c) eqn:Hc; simpl; [auto|]. by rewrite Hc.
Qed.

(** The test [not rule.strip()] holds exactly of the white-space-only
    texts. *)
Lemma strip_blank s :
  PyStr.strip PyStr.isspace s = "" <-> all_space s = true.
Proof.
  unfold PyStr.strip. split.
  - intros H. by apply lstrip_rest_all_space, rstrip_all_space.
  - intros H. by rewrite lstrip_all_space.
Qed.

Lemma space_parens_all_space s : all_space s = true -> space_parens s = s.
Proof.
  induction s as [|c r IH]; [done|]. simpl.
  intros [Hc Hr]%andb_true_iff.
  destruct (isspace_not_special c Hc) as (-> & -> & _). simpl. by rewrite IH.
Qed.

Lemma space_operators_all_space s : all_space s = true -> space_operators s = s.
Proof.
  induction s as [|c r IH]; [done|]. simpl.
  intros [Hc Hr]%andb_true_iff.
  destruct (isspace_not_special c Hc) as (_ & _ & Hcmp). rewrite Hcmp, (IH Hr).
  destruct r as [|c' r']; [done|].
  unfold is_cmp_char in Hcmp.
  apply orb_false_iff in Hcmp as [[_ ->]%orb_false_iff ->]. done.
Qed.

Lemma split_all_space s : all_space s = true -> PyStr.split s = [].
Proof.
  induction s as [|c r IH]; [done|]. simpl.
  intros [-> Hr]%andb_true_iff. auto.
Qed.

(** A text with a token is not blank. *)
Lemma tokens_of_blank s : all_space s = true -> tokens_of s = [].
Proof.
  intros H. unfold tokens_of.
  by rewrite space_parens_all_space, space_operators_all_space, split_all_space.
Qed.

Lemma prefix_ok_spec tokens n :
  prefix_ok tokens n = true <->
  forall q, (q < n)%nat -> 0 <= depth (take (S q) tokens).
Proof.
  unfold prefix_ok. rewrite forallb_forall. split.
  - intros H q Hq. apply Z.leb_le, H, in_seq. lia.
  - intros H q [_ Hq]%in_seq. apply Z.leb_le, H. lia.
Qed.

Lemma check_parens_step token rest pos paren_count :
  check_parens (token :: rest) pos paren_count
  = if paren_count + paren_delta token <? 0
    then Raise (ParseError "Unmatched closing parenthesis" pos token)
    else check_parens rest (S pos) (paren_count + paren_delta token).
Proof.
  unfold paren_delta. simpl.
  destruct (token =? "(")%string; [done|].
  destruct (token =? ")")%string; [done|].
  by rewrite Z.add_0_r.
Qed.

(** Without a stray closing parenthesis the scan ends with the depth of
    the tokens. *)
Lemma check_parens_ok tokens : forall pos paren_count,
  (forall q, (q < length tokens)%nat ->
             0 <= paren_count + depth (take (S q) tokens)) ->
  check_parens tokens pos paren_count = Ok (paren_count + depth tokens).
Proof.
  induction tokens as [|token rest IH]; intros pos paren_count H.
  { simpl. by rewrite Z.add_0_r. }
  rewrite check_parens_step.
  pose proof (H 0%nat ltac:(simpl; lia)) as H0. simpl in H0.
  rewrite Z.add_0_r in H0.
  destruct (Z.ltb_spec (paren_count + paren_delta token) 0); [lia|].
  rewrite IH.
  - simpl. f_equal. lia.
  - intros q Hq. specialize (H (S q) ltac:(simpl; lia)).
    simpl in H. simpl. lia.
Qed.

(** The scan stops at the first stray closing parenthesis. *)
Lemma check_parens_stray tokens : forall pos paren_count p,
  0 <= paren_count ->
  (forall q, (q < p)%nat -> 0 <= paren_count + depth (take (S q) tokens)) ->
  paren_count + depth (take (S p) tokens) < 0 ->
  check_parens tokens pos paren_count
  = Raise (ParseError "Unmatched closing parenthesis" (pos + p) ")").
Proof.
  induction tokens as [|token rest IH]; intros pos paren_count p Hc Hpre Hneg.
  { simpl in Hneg. lia. }
  rewrite check_parens_step.
  destruct p as [|p].
  - simpl in Hneg. rewrite Z.add_0_r in Hneg.
    destruct (Z.ltb_spec (paren_count + paren_delta token) 0); [|lia].
    rewrite Nat.add_0_r. do 2 f_equal.
    unfold paren_delta in Hneg.
    destruct (token =? "(")%string; [lia|].
    destruct (String.eqb_spec token ")"); [done|lia].
  - pose proof (Hpre 0%nat ltac:(lia)) as H0. simpl in H0.
    rewrite Z.add_0_r in H0.
    destruct (Z.ltb_spec (paren_count + paren_delta token) 0); [lia|].
    rewrite (IH _ _ p); [do 2 f_equal; lia|done| |].
    + intros q Hq. specialize (Hpre (S q) ltac:(lia)). simpl in Hpre. simpl. lia.
    + simpl in Hneg. simpl. lia.
Qed.

Lemma tokenize_rule_not_blank rule :
  tokens_of rule <> [] ->
  tokenize_rule rule
  = (validate_tokens (tokens_of rule) ;;; Ok (tokens_of rule)).
Proof.
  intros Htok. unfold tokenize_rule.
  destruct (PyStr.strip PyStr.isspace rule) eqn:Hstrip; [|done].
  apply strip_blank, tokens_of_blank in Hstrip. done.
Qed.

Lemma depth_take_S tokens : forall p,
  depth (take (S p) tokens)
  = depth (take p tokens)
    + match tokens !! p with Some t => paren_delta t | None => 0 end.
Proof.
  induction tokens as [|token rest IH]; intros [|p]; simpl; try lia.
  specialize (IH p). simpl in IH. rewrite IH. lia.
Qed.

Lemma stray_at_token tokens p :
  stray_at tokens p = true -> tokens !! p = Some ")".
Proof.
  unfold stray_at. intros [Hpre Hneg%Z.ltb_lt]%andb_true_iff.
  rewrite prefix_ok_spec in Hpre. rewrite depth_take_S in Hneg.
  assert (0 <= depth (take p tokens)) as Hp.
  { destruct p as [|p]; [by rewrite take_0|]. apply Hpre. lia. }
  destruct (tokens !! p) as [t|]; [|lia]. f_equal.
  unfold paren_delta in Hneg.
  destruct (t =? "(")%string; [lia|].
  destruct (String.eqb_spec t ")"); [done|lia].
Qed.

(** C7.  Tokenizing blank or white-space-only text fails with a
    [ParseError] at position 0.  When the tokens of the text hold a stray
    closing parenthesis, tokenizing fails with a [ParseError] that carries
    the 0-based position of that token and the token.  When they hold an
    opening parenthesis that is never closed (and no stray closing one),
    tokenizing fails with a [ParseError] at the position of the last
    token. *)
Theorem tokenize_rule_errors (rule : string) :
  (all_space rule = true ->
   tokenize_rule rule = Raise (ParseError "Empty rule string" 0 ""))
  /\ (forall p, stray_at (tokens_of rule) p = true ->
        tokens_of rule !! p = Some ")"
        /\ tokenize_rule rule
           = Raise (ParseError "Unmatched closing parenthesis" p ")"))
  /\ (unclosed (tokens_of rule) = true ->
      tokenize_rule rule
      = Raise (ParseError "Unmatched opening parenthesis"
                 (length (tokens_of rule) - 1) "")).
Proof.
  split; [|split].
  - intros Hblank. unfold tokenize_rule.
    apply strip_blank in Hblank. by rewrite Hblank.
  - intros p Hstray. pose proof (stray_at_token _ _ Hstray) as Htok.
    split; [done|].
    rewrite tokenize_rule_not_blank by (by intros Hnil; rewrite Hnil in Htok).
    unfold validate_tokens.
    destruct (tokens_of rule) as [|t ts] eqn:Hts; [done|].
    unfold stray_at in Hstray.
    apply andb_true_iff in Hstray as [Hpre Hneg%Z.ltb_lt].
    rewrite prefix_ok_spec in Hpre.
    rewrite (check_parens_stray _ 0%nat 0 p); [done|lia| |lia].
    intros q Hq. specialize (Hpre q Hq). lia.
  - intros [Hpre Hpos%Z.ltb_lt]%andb_true_iff.
    rewrite prefix_ok_spec in Hpre.
    rewrite tokenize_rule_not_blank by (by intros Hnil; rewrite Hnil in Hpos).
    unfold validate_tokens.
    destruct (tokens_of rule) as [|t ts] eqn:Hts; [done|].
    rewrite (check_parens_ok _ 0%nat 0).
    + rewrite Z.add_0_l. apply Z.ltb_lt in Hpos. cbn [bind].
      by rewrite Hpos.
    + intros q Hq. specialize (Hpre q Hq). lia.
Qed.

(** The three texts of the specification: a blank one, [a > 1)] and
    [(a > 1]. *)
Lemma tokenize_rule_errors_examples :
  tokenize_rule "   " = Raise (ParseError "Empty rule string" 0 "")
  /\ (["a"; ">"; "1"; ")"] !! 3%nat = Some ")"
      /\ tokenize_rule "a > 1)"
         = Raise (ParseError "Unmatched closing parenthesis" 3 ")"))
  /\ tokenize_rule "(a > 1"
     = Raise (ParseError "Unmatched opening parenthesis" 3 "").
Proof.
  split; [|split].
  - apply (proj1 (tokenize_rule_errors "   ")). reflexivity.
  - apply (proj1 (proj2 (tokenize_rule_errors "a > 1)")) 3%nat). reflexivity.
  - apply (proj2 (proj2 (tokenize_rule_errors "(a > 1"))). reflexivity.
Defined.

End Tokenizer.

(** ** The engine's mutations *)

Section Mutations.

Import Engine.

Lemma create_rule_run name rule_str self :
  create_rule name rule_str self
  = match rules self !! name with
    | Some _ => (Raise (ValueError ("Rule " ++ name ++ " already exists")), self)
    | None =>
        match build_rule (catalog self) name rule_str with
        | Ok rule => (Ok rule, store rule self)
        | Raise e => (Raise e, self)
        end
    end.
Proof.
  unfold create_rule, build_rule, mbind, get_rules, get_catalog, lift, raise,
    ret, put_rules, store.
  simpl. destruct (rules self !! name); [done|].
  destruct (parse_rule rule_str) as [a|e]; simpl; [|done].
  destruct (validate_attributes (catalog self) a); simpl; [|done].
  by destruct (Compiler.transform_to_decision_tree a).
Qed.

Lemma create_rule_raise name rule_str self e self' :
  create_rule name rule_str self = (Raise e, self') -> self' = self.
Proof.
  rewrite create_rule_run. intros H.
  repeat (case_match; simplify_eq); done.
Qed.

Lemma catalog_add_attribute_raise definition cat e cat' :
  Catalog.add_attribute definition cat = (Raise e, cat') -> cat' = cat.
Proof.
  unfold Catalog.add_attribute. intros H.
  repeat (case_match; simplify_eq); done.
Qed.

Lemma add_attribute_raise definition self e self' :
  add_attribute definition self = (Raise e, self') -> self' = self.
Proof.
  unfold add_attribute. intros H.
  destruct (Catalog.add_attribute definition (catalog self)) as [r cat] eqn:Hadd.
  simplify_eq. apply catalog_add_attribute_raise in Hadd as ->.
  by destruct self.
Qed.

Lemma combine_rules_raise name rule_names operator self e self' :
  combine_rules name rule_names operator self = (Raise e, self') ->
  self' = self.
Proof.
  unfold combine_rules, mbind, get_rules, lift, raise, ret, put_rules.
  intros H. simpl in H.
  repeat (case_match; simplify_eq); done.
Qed.

Lemma modify_rule_run name new_rule_str self :
  modify_rule name new_rule_str self
  = match rules self !! name with
    | None => (Raise (ValueError ("Rule " ++ name ++ " does not exist")), self)
    | Some _ => create_rule name new_rule_str (forget name self)
    end.
Proof.
  unfold modify_rule, mbind, get_rules, raise, put_rules, forget. simpl.
  by destruct (rules self !! name).
Qed.

(** C6.  A failing [add_attribute], [create_rule] or [combine_rules] leaves
    the catalog and the rule map as they were.  [modify_rule] is the
    exception: on a name that exists, a failure leaves the engine without
    the old rule, and a text that fails to parse or to validate makes it
    fail, so afterwards no rule has that name. *)
Theorem failed_mutation_state (self : RuleEngine) :
  (forall definition e self',
      add_attribute definition self = (Raise e, self') -> self' = self)
  /\ (forall name rule_str e self',
        create_rule name rule_str self = (Raise e, self') -> self' = self)
  /\ (forall name rule_names operator e self',
        combine_rules name rule_names operator self = (Raise e, self') ->
        self' = self)
  /\ (forall name text e self',
        modify_rule name text self = (Raise e, self') ->
        match rules self !! name with
        | None => self' = self
        | Some _ => self' = forget name self /\ rules self' !! name = None
        end)
  /\ (forall name text old e,
        rules self !! name = Some old ->
        parse_rule text = Raise e
        \/ (exists a, parse_rule text = Ok a
                      /\ validate_attributes (catalog self) a = Raise e) ->
        modify_rule name text self = (Raise e, forget name self)
        /\ rules (forget name self) !! name = None).
Proof.
  split; [|split; [|split; [|split]]].
  - intros *. apply add_attribute_raise.
  - intros *. apply create_rule_raise.
  - intros *. apply combine_rules_raise.
  - intros name text e self'. rewrite modify_rule_run.
    destruct (rules self !! name); [|by intros [= <-]].
    intros ->%create_rule_raise. split; [done|]. apply lookup_delete_eq.
  - intros name text old e Hold Hfail.
    split; [|apply lookup_delete_eq].
    rewrite modify_rule_run, Hold, create_rule_run. simpl.
    rewrite lookup_delete_eq. unfold build_rule.
    destruct Hfail as [->|(a & -> & Hval)]; [done|].
    simpl. by rewrite Hval.
Qed.

End Mutations.

(** ** Evaluation *)

Section Evaluation.

Import Engine.

Lemma evaluate_run rule_name c self :
  evaluate rule_name c self
  = match rules self !! rule_name with
    | None =>
        (Raise (ValueError ("Rule " ++ rule_name ++ " does not exist")), self)
    | Some rule =>
        (validate_candidate (catalog self) c ;;; walk (decision_tree rule) c,
         self)
    end.
Proof.
  unfold evaluate, mbind, get_rules, get_catalog, lift, raise. simpl.
  destruct (rules self !! rule_name); [|done].
  by destruct (validate_candidate (catalog self) c).
Qed.

(** A rule that [create_rule] can build is stored under its name, and
    [evaluate] then walks its decision tree. *)
Lemma create_rule_stores name rule_str self rule :
  rules self !! name = None ->
  build_rule (catalog self) name rule_str = Ok rule ->
  create_rule name rule_str self = (Ok rule, store rule self)
  /\ forall c,
      evaluate name c (store rule self)
      = (validate_candidate (catalog self) c ;;; walk (decision_tree rule) c,
         store rule self).
Proof.
  intros Hfresh Hbuild. rewrite create_rule_run, Hfresh, Hbuild.
  split; [done|]. intros c. rewrite evaluate_run.
  assert (rule_name rule = name) as Hname.
  { unfold build_rule, bind in Hbuild.
    repeat case_match; by simplify_eq. }
  unfold store. simpl. by rewrite Hname, lookup_insert_eq.
Qed.

(** The decision tree is a function of the rule text alone once the
    attributes of the rule are in the catalog. *)
Lemma build_rule_condition cat name rule_str attribute operator literal inv d tree :
  parse_rule rule_str = Ok (condition attribute operator literal inv) ->
  attributes cat !! attribute = Some d ->
  Compiler.transform_to_decision_tree
    (condition attribute operator literal inv) = Ok tree ->
  build_rule cat name rule_str
  = Ok {| rule_name := name; rule_str := rule_str;
          rule_ast := condition attribute operator literal inv;
          decision_tree := tree |}.
Proof.
  intros Hparse Hattr Htree. unfold build_rule.
  rewrite Hparse. cbn [bind validate_attributes].
  rewrite Hattr. cbn [bind]. by rewrite Htree.
Qed.

End Evaluation.

(** ** The claims on rules and their evaluation *)

Section Claims.

Import Engine.

Lemma parse_country :
  parse_rule "country = 'us'" = Ok (condition "country" "=" (VStr "us") false).
Proof. vm_compute. reflexivity. Qed.

Lemma compile_country :
  Compiler.transform_to_decision_tree (condition "country" "=" (VStr "us") false)
  = Ok (decision "country" "=" (VStr "us") (result_node true) (result_node true)).
Proof. vm_compute. reflexivity. Qed.

(** C8.  [=] on a string literal compares the candidate's string and the
    literal after lower-casing both, in [condition.eval] and in
    [decision.eval]; and where [country] is a String attribute that allows
    ["US"], [create_rule("r", "country = 'us'")] succeeds and
    [evaluate("r", {country: "US"})] is true. *)
Theorem string_equality_ignores_case :
  (forall attribute literal invertion s (c : candidate),
      candidate_get c attribute = Some (VStr s) ->
      eval (condition attribute "=" (VStr literal) invertion) c
      = Ok (invert invertion (PyStr.lower s =? PyStr.lower literal)%string)
      /\ forall true_tree false_tree,
          decision_eval attribute "=" (VStr literal) true_tree false_tree c
          = Ok (Some (if (PyStr.lower s =? PyStr.lower literal)%string
                      then true_tree else false_tree)))
  /\ (forall self d vs,
        rules self !! "r" = None ->
        attributes (catalog self) !! "country" = Some d ->
        attr_type d = STRING ->
        allowed_values d = Some vs ->
        "US" ∈ vs ->
        exists rule,
          create_rule "r" "country = 'us'" self = (Ok rule, store rule self)
          /\ evaluate "r" [("country", VStr "US")] (store rule self)
             = (Ok true, store rule self)).
Proof.
  split.
  - intros attribute literal invertion s c Hget. split.
    + cbn [eval]. unfold condition_eval. rewrite Hget. reflexivity.
    + intros true_tree false_tree. unfold decision_eval.
      rewrite Hget. reflexivity.
  - intros self d vs Hfresh Hattr Htype Hallowed Hin.
    destruct (create_rule_stores "r" "country = 'us'" self _ Hfresh
                (build_rule_condition _ "r" _ _ _ _ _ d _
                   parse_country Hattr compile_country)) as [Hcreate Heval].
    eexists. split; [exact Hcreate|].
    rewrite Heval. f_equal.
    cbn [validate_candidate]. rewrite Hattr.
    unfold Catalog.validate_value. rewrite Hattr, Htype, Hallowed.
    cbn [bind]. rewrite bool_decide_eq_true_2 by done.
    reflexivity.
Qed.

Lemma engine_adult_fresh_r : rules engine_adult !! "r" = None.
Proof. vm_compute. reflexivity. Qed.

Lemma engine_adult_country :
  attributes (catalog engine_adult) !! "country" = Some country_attribute.
Proof. vm_compute. reflexivity. Qed.

Lemma string_equality_ignores_case_witness :
  eval (condition "country" "=" (VStr "us") true) [("country", VStr "Us")]
  = Ok false
  /\ exists rule,
      create_rule "r" "country = 'us'" engine_adult
      = (Ok rule, store rule engine_adult)
      /\ evaluate "r" [("country", VStr "US")] (store rule engine_adult)
         = (Ok true, store rule engine_adult).
Proof.
  split.
  - apply (proj1 string_equality_ignores_case "country" "us" true "Us").
    reflexivity.
  - apply (proj2 string_equality_ignores_case engine_adult country_attribute
             {[ "US"; "CA" ]}).
    + exact engine_adult_fresh_r.
    + exact engine_adult_country.
    + reflexivity.
    + reflexivity.
    + set_solver.
Defined.


Lemma parse_age_abc :
  parse_rule "age = abc" = Ok (condition "age" "=" (VStr "abc") false).
Proof. vm_compute. reflexivity. Qed.

Lemma compile_age_abc :
  Compiler.transform_to_decision_tree (condition "age" "=" (VStr "abc") false)
  = Ok (decision "age" "=" (VStr "abc") (result_node true) (result_node true)).
Proof. vm_compute. reflexivity. Qed.

(** C10.  With an Integer attribute [age] in the catalog,
    [create_rule("r", "age = abc")] succeeds, its literal stays the string
    [abc], and [evaluate("r", {age: 30})], on a candidate the catalog
    accepts, raises [AttributeError] from [.lower()] on the [int], not one of
    the errors of the taxonomy. *)
Theorem evaluate_raises_attribute_error (self : RuleEngine)
    (d : AttributeDefinition) :
  rules self !! "r" = None ->
  attributes (catalog self) !! "age" = Some d ->
  attr_type d = INTEGER ->
  Catalog.validate_value (catalog self) "age" (VInt 30) = Ok true ->
  exists rule,
    create_rule "r" "age = abc" self = (Ok rule, store rule self)
    /\ rule_ast rule = condition "age" "=" (VStr "abc") false
    /\ validate_candidate (catalog self) [("age", VInt 30)] = Ok tt
    /\ evaluate "r" [("age", VInt 30)] (store rule self)
       = (Raise (AttributeError "'int' object has no attribute 'lower'"),
          store rule self).
Proof.
  intros Hfresh Hattr Htype Hvalid.
  destruct (create_rule_stores "r" "age = abc" self _ Hfresh
              (build_rule_condition _ "r" _ _ _ _ _ d _
                 parse_age_abc Hattr compile_age_abc)) as [Hcreate Heval].
  assert (validate_candidate (catalog self) [("age", VInt 30)] = Ok tt) as Hc.
  { cbn [validate_candidate]. by rewrite Hattr, Hvalid. }
  eexists. split; [exact Hcreate|]. split; [reflexivity|]. split; [done|].
  rewrite Heval, Hc. reflexivity.
Qed.

Lemma engine_adult_age :
  attributes (catalog engine_adult) !! "age" = Some age_attribute.
Proof. vm_compute. reflexivity. Qed.

Lemma evaluate_raises_attribute_error_witness :
  exists rule,
    create_rule "r" "age = abc" engine_adult = (Ok rule, store rule engine_adult)
    /\ rule_ast rule = condition "age" "=" (VStr "abc") false
    /\ validate_candidate (catalog engine_adult) [("age", VInt 30)] = Ok tt
    /\ evaluate "r" [("age", VInt 30)] (store rule engine_adult)
       = (Raise (AttributeError "'int' object has no attribute 'lower'"),
          store rule engine_adult).
Proof.
  apply (evaluate_raises_attribute_error engine_adult age_attribute).
  - exact engine_adult_fresh_r.
  - exact engine_adult_age.
  - reflexivity.
  - vm_compute. reflexivity.
Defined.

Lemma parse_bare_and : parse_rule "AND" = Ok (operation "and" [] false).
Proof. vm_compute. reflexivity. Qed.

Lemma build_rule_bare_and cat name :
  build_rule cat name "AND"
  = Ok {| rule_name := name; rule_str := "AND";
          rule_ast := operation "and" [] false;
          decision_tree := result_node true |}.
Proof. unfold build_rule. rewrite parse_bare_and. reflexivity. Qed.

(** Not every candidate: with [age] an Integer attribute, the rule made from
    the text [AND] does not evaluate to true on the candidate [{age: "old"}];
    [evaluate] raises the invalid-value error. *)
Lemma bare_keyword_rule_invalid_candidate :
  (create_rule "always" "AND" engine_empty).1
  = Ok {| rule_name := "always"; rule_str := "AND";
          rule_ast := operation "and" [] false;
          decision_tree := result_node true |}
  /\ (evaluate "always" [("age", VStr "old")]
        (create_rule "always" "AND" engine_empty).2).1
     = Raise (InvalidValue "age" (VStr "old")).
Proof. split; vm_compute; reflexivity. Qed.

(** C9, amended.  [create_rule] accepts the text [AND] under a free name:
    parsing yields an [operation] with no children, an [operation] with no
    children evaluates to true, and [evaluate] of the stored rule returns
    true for every candidate that passes the catalog's validation, the empty
    candidate among them. *)
Theorem bare_keyword_rule (self : RuleEngine) (name : string) :
  rules self !! name = None ->
  exists rule,
    create_rule name "AND" self = (Ok rule, store rule self)
    /\ parse_rule "AND" = Ok (operation "and" [] false)
    /\ rule_ast rule = operation "and" [] false
    /\ (forall operator invertion c,
          eval (operation operator [] invertion) c = Ok true)
    /\ (forall c, walk (decision_tree rule) c = Ok true)
    /\ (forall c,
          validate_candidate (catalog self) c = Ok tt ->
          evaluate name c (store rule self) = (Ok true, store rule self))
    /\ evaluate name [] (store rule self) = (Ok true, store rule self).
Proof.
  intros Hfresh.
  destruct (create_rule_stores name "AND" self _ Hfresh
              (build_rule_bare_and _ _)) as [Hcreate Heval].
  eexists. split; [exact Hcreate|].
  split; [exact parse_bare_and|]. split; [reflexivity|].
  split; [reflexivity|]. split; [reflexivity|]. split.
  - intros c Hc. by rewrite Heval, Hc.
  - by rewrite Heval.
Qed.

Lemma bare_keyword_rule_witness :
  exists rule,
    create_rule "r" "AND" engine_adult = (Ok rule, store rule engine_adult)
    /\ parse_rule "AND" = Ok (operation "and" [] false)
    /\ rule_ast rule = operation "and" [] false
    /\ (forall operator invertion c,
          eval (operation operator [] invertion) c = Ok true)
    /\ (forall c, walk (decision_tree rule) c = Ok true)
    /\ (forall c,
          validate_candidate (catalog engine_adult) c = Ok tt ->
          evaluate "r" c (store rule engine_adult)
          = (Ok true, store rule engine_adult))
    /\ evaluate "r" [] (store rule engine_adult)
       = (Ok true, store rule engine_adult).
Proof. exact (bare_keyword_rule engine_adult "r" engine_adult_fresh_r). Defined.

(** [failed_mutation_state] at work: three failing calls on [engine_adult]
    change nothing, and [modify_rule] with a text that does not parse loses
    the rule [adult]. *)
Lemma failed_mutation_state_witness :
  (add_attribute age_attribute engine_adult).2 = engine_adult
  /\ (create_rule "adult" "age >= 21" engine_adult).2 = engine_adult
  /\ (combine_rules "both" ["adult"; "minor"] "and" engine_adult).2
     = engine_adult
  /\ (modify_rule "adult" "age >=" engine_adult
      = (Raise (ParseError "Missing value after operator '>='" 2 ""),
         forget "adult" engine_adult)
      /\ rules (forget "adult" engine_adult) !! "adult" = None).
Proof.
  split; [|split; [|split]].
  - apply (proj1 (failed_mutation_state engine_adult) age_attribute
             (ValueError "Attribute age already exists")).
    vm_compute. reflexivity.
  - apply (proj1 (proj2 (failed_mutation_state engine_adult))
             "adult" "age >= 21" (ValueError "Rule adult already exists")).
    vm_compute. reflexivity.
  - apply (proj1 (proj2 (proj2 (failed_mutation_state engine_adult)))
             "both" ["adult"; "minor"] "and"
             (ValueError "Rule minor does not exist")).
    vm_compute. reflexivity.
  - apply (proj2 (proj2 (proj2 (proj2 (failed_mutation_state engine_adult))))
             "adult" "age >="
             {| rule_name := "adult"; rule_str := "age >= 18";
                rule_ast := condition "age" ">=" (VInt 18) false;
                decision_tree :=
                  decision "age" ">=" (VInt 18)
                    (result_node true) (result_node false) |}).
    + vm_compute. reflexivity.
    + left. vm_compute. reflexivity.
Defined.


(** ** Where the code departs from the specification *)

Lemma parse_age_above_18 :
  parse_rule "age > 18" = Ok (condition "age" ">" (VInt 18) false).
Proof. vm_compute. reflexivity. Qed.

Lemma compile_age_above_18 :
  Compiler.transform_to_decision_tree (condition "age" ">" (VInt 18) false)
  = Ok (decision "age" ">" (VInt 18) (result_node false) (result_node false)).
Proof. vm_compute. reflexivity. Qed.

Lemma engine_empty_age :
  attributes (catalog engine_empty) !! "age" = Some age_attribute.
Proof. vm_compute. reflexivity. Qed.

(** C1.  With [age] an Integer attribute, [create_rule("r", "age > 18")]
    succeeds, but both leaves of its decision tree are false: [evaluate]
    returns false for [{age: 19}] as it does for [{age: 18}] and for every
    other integer age, while the syntax tree of the same rule evaluates to
    true at 19. *)
Theorem age_above_18_is_never_true :
  exists rule,
    create_rule "r" "age > 18" engine_empty = (Ok rule, store rule engine_empty)
    /\ rule_ast rule = condition "age" ">" (VInt 18) false
    /\ decision_tree rule
       = decision "age" ">" (VInt 18) (result_node false) (result_node false)
    /\ evaluate "r" [("age", VInt 19)] (store rule engine_empty)
       = (Ok false, store rule engine_empty)
    /\ evaluate "r" [("age", VInt 18)] (store rule engine_empty)
       = (Ok false, store rule engine_empty)
    /\ (forall z : Z,
          evaluate "r" [("age", VInt z)] (store rule engine_empty)
          = (Ok false, store rule engine_empty))
    /\ eval (rule_ast rule) [("age", VInt 19)] = Ok true.
Proof.
  destruct (create_rule_stores "r" "age > 18" engine_empty _ eq_refl
              (build_rule_condition _ "r" _ _ _ _ _ _ _
                 parse_age_above_18 engine_empty_age compile_age_above_18))
    as [Hcreate Heval].
  assert (forall z : Z,
             evaluate "r" [("age", VInt z)]
               (store
                  {| rule_name := "r"; rule_str := "age > 18";
                     rule_ast := condition "age" ">" (VInt 18) false;
                     decision_tree :=
                       decision "age" ">" (VInt 18)
                         (result_node false) (result_node false) |}
                  engine_empty)
             = (Ok false,
                store
                  {| rule_name := "r"; rule_str := "age > 18";
                     rule_ast := condition "age" ">" (VInt 18) false;
                     decision_tree :=
                       decision "age" ">" (VInt 18)
                         (result_node false) (result_node false) |}
                  engine_empty)) as Hall.
  { intros z. rewrite Heval. f_equal.
    cbn [validate_candidate]. rewrite engine_empty_age.
    unfold Catalog.validate_value. rewrite engine_empty_age.
    cbn. unfold PyValue.gt, PyValue.order. cbn.
    by destruct (z ?= 18). }
  eexists. split; [exact Hcreate|].
  repeat split; try reflexivity; try apply Hall.
Qed.

(** C2.  The rule [age > 18] has one condition, on one attribute, and every
    candidate [{age: z}] with [z] above 18 supplies it; its syntax tree
    evaluates to true there and its compiled decision tree to false. *)
Theorem decision_tree_differs_from_ast (z : Z) :
  18 < z ->
  exists a tree,
    parse_rule "age > 18" = Ok a
    /\ Compiler.transform_to_decision_tree a = Ok tree
    /\ eval a [("age", VInt z)] = Ok true
    /\ walk tree [("age", VInt z)] = Ok false.
Proof.
  intros Hz. eexists _, _.
  split; [exact parse_age_above_18|]. split; [exact compile_age_above_18|].
  apply Z.gt_lt_iff in Hz.
  split; cbn; unfold PyValue.gt, PyValue.order; cbn; unfold Z.gt in Hz;
    by rewrite Hz.
Qed.

Lemma decision_tree_differs_from_ast_witness :
  exists a tree,
    parse_rule "age > 18" = Ok a
    /\ Compiler.transform_to_decision_tree a = Ok tree
    /\ eval a [("age", VInt 19)] = Ok true
    /\ walk tree [("age", VInt 19)] = Ok false.
Proof. apply (decision_tree_differs_from_ast 19). reflexivity. Defined.

(** Once a triple has been taken, the node is a [bool]; a second triple makes
    the compiler call [eval] on it. *)
Lemma create_decision_tree_bool b t rest :
  Compiler.create_decision_tree (Compiler.Bool b) (t :: rest)
  = Raise (AttributeError "'bool' object has no attribute 'eval'").
Proof. by destruct t as [[attr op] val]. Qed.

(** A syntax tree with two distinct triples never compiles, whichever triple
    is taken first. *)
Lemma transform_fails_on_two_triples a t1 t2 rest :
  Compiler.find_conditions a = t1 :: t2 :: rest ->
  exists e, Compiler.transform_to_decision_tree a = Raise e.
Proof.
  intros Hfind. unfold Compiler.transform_to_decision_tree. rewrite Hfind.
  destruct t1 as [[attr op] val], t2 as [[attr' op'] val'].
  cbn [Compiler.create_decision_tree].
  destruct (Compiler.node_eval (Compiler.Tree a) [(attr, val)]);
    cbn [bind]; [|by eexists].
  destruct (Compiler.node_eval (Compiler.Tree a) _); cbn [bind]; by eexists.
Qed.

(** C3.  [adult] is [age >= 18] and [senior] is [age >= 65]; two rules that
    exist.  [combine_rules("c", ["adult", "senior"], op)] raises
    [AttributeError] while it compiles the decision tree, for [op] either
    [and] or [or], and stores nothing.  The compiler fails in the same way
    when the set of triples yields the triple of [senior] first. *)
Theorem combine_rules_fails_on_two_conditions :
  (exists adult senior,
      rules engine_two_rules !! "adult" = Some adult
      /\ rule_str adult = "age >= 18"
      /\ rules engine_two_rules !! "senior" = Some senior
      /\ rule_str senior = "age >= 65"
      /\ rules engine_two_rules !! "c" = None)
  /\ combine_rules "c" ["adult"; "senior"] "and" engine_two_rules
     = (Raise (AttributeError "'bool' object has no attribute 'eval'"),
        engine_two_rules)
  /\ combine_rules "c" ["adult"; "senior"] "or" engine_two_rules
     = (Raise (AttributeError "'bool' object has no attribute 'eval'"),
        engine_two_rules)
  /\ (forall operator,
        Compiler.create_decision_tree
          (Compiler.Tree
             (operation operator
                [condition "age" ">=" (VInt 18) false;
                 condition "age" ">=" (VInt 65) false] false))
          [("age", ">=", VInt 65); ("age", ">=", VInt 18)]
        = Raise (AttributeError "'bool' object has no attribute 'eval'")).
Proof.
  split; [|split; [|split]]; [|vm_compute; reflexivity..|].
  - eexists _, _. repeat split; vm_compute; reflexivity.
  - intros operator. cbn. by destruct (operator =? "and")%string.
Qed.

(** C4.  Infix rule text does not parse.  [a AND b OR c] fails in
    [parse_condition], which reads [AND] as the comparison operator of [a];
    with conditions for [a], [b] and [c] the first condition alone is
    returned and [parse_rule] rejects the rest, as it does for the parenthesised
    example of the API.  The wrapping step is there: the keywords-first
    text [AND a > 1 b > 2 OR c > 3] gives the [or] node over the [and] node
    and the last condition. *)
Theorem infix_rule_text_fails_to_parse :
  parse_rule "a AND b OR c"
  = Raise (ParseError "Invalid comparison operator" 1 "AND")
  /\ parse_rule "a > 1 AND b > 2 OR c > 3"
     = Raise (ParseError "Unexpected tokens after valid expression" 3 "AND")
  /\ parse_rule "(age >= 18) AND (country = 'US')"
     = Raise (ParseError "Unexpected tokens after valid expression" 5 "AND")
  /\ parse_rule "AND a > 1 b > 2 OR c > 3"
     = Ok (operation "or"
             [operation "and"
                [condition "a" ">" (VInt 1) false;
                 condition "b" ">" (VInt 2) false] false;
              condition "c" ">" (VInt 3) false] false).
Proof. repeat split; vm_compute; reflexivity. Qed.

(** C5.  With [age] an Integer attribute, [create_rule("r", "NOT (age > 18)")]
    fails: [parse_condition] takes the parenthesis for the attribute and
    [age] for the comparison operator.  No rule is stored, so [evaluate]
    finds none. *)
Theorem negated_group_fails_to_parse :
  create_rule "r" "NOT (age > 18)" engine_empty
  = (Raise (ParseError "Invalid comparison operator" 2 "age"), engine_empty)
  /\ evaluate "r" [("age", VInt 10)] engine_empty
     = (Raise (ValueError "Rule r does not exist"), engine_empty).
Proof. split; vm_compute; reflexivity. Qed.

End Claims.



(** * Further properties *)

(** ** The engine: what a call leaves behind *)

Section EngineFacts.

Import Engine.

Lemma build_rule_fields cat name text rule :
  build_rule cat name text = Ok rule ->
  rule_name rule = name /\ rule_str rule = text
  /\ parse_rule text = Ok (rule_ast rule)
  /\ validate_attributes cat (rule_ast rule) = Ok tt
  /\ Compiler.transform_to_decision_tree (rule_ast rule)
     = Ok (decision_tree rule).
Proof.
  unfold build_rule. intros H.
  destruct (parse_rule text) as [a|] eqn:Hp; [|done]. cbn [bind] in H.
  destruct (validate_attributes cat a) as [[]|] eqn:Hv; [|done].
  cbn [bind] in H.
  destruct (Compiler.transform_to_decision_tree a) eqn:Ht; [|done].
  cbn [bind] in H. by simplify_eq.
Qed.

Lemma create_rule_success_aux name text self rule self' :
  create_rule name text self = (Ok rule, self') ->
  rules self !! name = None
  /\ rule_name rule = name /\ rule_str rule = text
  /\ parse_rule text = Ok (rule_ast rule)
  /\ validate_attributes (catalog self) (rule_ast rule) = Ok tt
  /\ Compiler.transform_to_decision_tree (rule_ast rule)
     = Ok (decision_tree rule)
  /\ catalog self' = catalog self
  /\ rules self' !! name = Some rule
  /\ (forall other, other <> name -> rules self' !! other = rules self !! other).
Proof.
  rewrite create_rule_run. intros H.
  destruct (rules self !! name) eqn:Hfresh; [done|].
  destruct (build_rule (catalog self) name text) as [r|] eqn:Hbuild; [|done].
  simplify_eq.
  destruct (build_rule_fields _ _ _ _ Hbuild) as (Hname & Hstr & Hp & Hv & Ht).
  repeat split; try done.
  - unfold store. simpl. by rewrite Hname, lookup_insert_eq.
  - intros other Hother. unfold store. simpl.
    rewrite Hname. by apply lookup_insert_ne.
Qed.

(** A [create_rule] that returns found the name free and the text parsed,
    validated and compiled; it leaves the catalog alone, files the rule under
    its name and touches no other rule. *)
Theorem create_rule_success name text self rule self' :
  create_rule name text self = (Ok rule, self') ->
  rules self !! name = None
  /\ rule_name rule = name /\ rule_str rule = text
  /\ parse_rule text = Ok (rule_ast rule)
  /\ validate_attributes (catalog self) (rule_ast rule) = Ok tt
  /\ Compiler.transform_to_decision_tree (rule_ast rule)
     = Ok (decision_tree rule)
  /\ catalog self' = catalog self
  /\ rules self' !! name = Some rule
  /\ (forall other, other <> name -> rules self' !! other = rules self !! other).
Proof. intros; eapply create_rule_success_aux; eauto. Qed.

Lemma create_rule_success_witness :
  exists rule,
    rules engine_empty !! "adult" = None
    /\ rule_name rule = "adult" /\ rule_str rule = "age >= 18"
    /\ parse_rule "age >= 18" = Ok (rule_ast rule)
    /\ validate_attributes (catalog engine_empty) (rule_ast rule) = Ok tt
    /\ Compiler.transform_to_decision_tree (rule_ast rule)
       = Ok (decision_tree rule)
    /\ catalog engine_adult = catalog engine_empty
    /\ rules engine_adult !! "adult" = Some rule
    /\ (forall other, other <> "adult" ->
                      rules engine_adult !! other = rules engine_empty !! other).
Proof.
  eexists.
  apply (create_rule_success "adult" "age >= 18" engine_empty).
  vm_compute. reflexivity.
Defined.

(** [modify_rule] on a name that is absent raises and changes nothing; when it
    returns, the name was there, the new rule has taken its place, and every
    other rule and the catalog are as before. *)
Theorem modify_rule_outcome name text self :
  (rules self !! name = None ->
   modify_rule name text self
   = (Raise (ValueError ("Rule " ++ name ++ " does not exist")), self))
  /\ (forall rule self',
        modify_rule name text self = (Ok rule, self') ->
        is_Some (rules self !! name)
        /\ rule_name rule = name /\ rule_str rule = text
        /\ catalog self' = catalog self
        /\ rules self' !! name = Some rule
        /\ (forall other, other <> name ->
                          rules self' !! other = rules self !! other)).
Proof.
  rewrite modify_rule_run. split.
  - by intros ->.
  - intros rule self' H. destruct (rules self !! name) eqn:Hold; [|done].
    apply create_rule_success_aux in H
      as (_ & Hname & Hstr & _ & _ & _ & Hcat & Hnew & Hothers).
    repeat split; try done.
    intros other Hother. rewrite (Hothers other Hother).
    unfold forget. simpl. by apply lookup_delete_ne.
Qed.

Lemma modify_rule_outcome_witness :
  modify_rule "senior" "age >= 65" engine_adult
  = (Raise (ValueError "Rule senior does not exist"), engine_adult)
  /\ exists rule,
      is_Some (rules engine_adult !! "adult")
      /\ rule_name rule = "adult" /\ rule_str rule = "age >= 21"
      /\ catalog (modify_rule "adult" "age >= 21" engine_adult).2
         = catalog engine_adult
      /\ rules (modify_rule "adult" "age >= 21" engine_adult).2 !! "adult"
         = Some rule
      /\ (forall other, other <> "adult" ->
            rules (modify_rule "adult" "age >= 21" engine_adult).2 !! other
            = rules engine_adult !! other).
Proof.
  split.
  - apply (proj1 (modify_rule_outcome "senior" "age >= 65" engine_adult)).
    vm_compute. reflexivity.
  - eexists.
    apply (proj2 (modify_rule_outcome "adult" "age >= 21" engine_adult)).
    vm_compute. reflexivity.
Defined.

End EngineFacts.

(** ** The engine: evaluation *)

Section EvaluateFacts.

Import Engine.

Lemma evaluate_leaves_engine_aux name c self : (evaluate name c self).2 = self.
Proof.
  rewrite evaluate_run. by destruct (rules self !! name).
Qed.

(** [evaluate] never changes the engine. *)
Theorem evaluate_leaves_engine name c self : (evaluate name c self).2 = self.
Proof. intros; eapply evaluate_leaves_engine_aux; eauto. Qed.

Lemma validate_candidate_app cat pre rest :
  validate_candidate cat pre = Ok tt ->
  validate_candidate cat (pre ++ rest)%list = validate_candidate cat rest.
Proof.
  induction pre as [|[k v] pre IH]; [done|].
  cbn [validate_candidate app]. intros H.
  destruct (attributes cat !! k); [|by apply IH].
  destruct (Catalog.validate_value cat k v) as [[]|]; cbn [bind] in *;
    [by apply IH|done..].
Qed.

(** The three ways [evaluate] fails on purpose: the rule is unknown; the
    first item of the candidate that names a catalog attribute with a value
    the catalog refuses; and, for a candidate that validates, a decision
    whose attribute the candidate lacks. *)
Theorem evaluate_errors name c self :
  (rules self !! name = None ->
   evaluate name c self
   = (Raise (ValueError ("Rule " ++ name ++ " does not exist")), self))
  /\ (forall rule pre k v post d,
        rules self !! name = Some rule ->
        c = (pre ++ (k, v) :: post)%list ->
        validate_candidate (catalog self) pre = Ok tt ->
        attributes (catalog self) !! k = Some d ->
        Catalog.validate_value (catalog self) k v = Ok false ->
        evaluate name c self = (Raise (InvalidValue k v), self))
  /\ (forall rule attribute operator literal true_tree false_tree,
        rules self !! name = Some rule ->
        decision_tree rule
        = decision attribute operator literal true_tree false_tree ->
        validate_candidate (catalog self) c = Ok tt ->
        candidate_get c attribute = None ->
        evaluate name c self
        = (Raise (ValueError ("Missing attribute: " ++ attribute)), self)).
Proof.
  rewrite evaluate_run. split; [|split].
  - by intros ->.
  - intros rule pre k v post d -> -> Hpre Hattr Hbad.
    rewrite (validate_candidate_app _ _ _ Hpre).
    cbn [validate_candidate]. by rewrite Hattr, Hbad.
  - intros rule attribute operator literal true_tree false_tree -> -> -> Hget.
    cbn [bind walk]. by rewrite Hget.
Qed.

Lemma evaluate_errors_witness :
  evaluate "senior" [("age", VInt 70)] engine_adult
  = (Raise (ValueError "Rule senior does not exist"), engine_adult)
  /\ evaluate "adult" [("height", VInt 180); ("age", VStr "old");
                       ("country", VInt 1)] engine_adult
     = (Raise (InvalidValue "age" (VStr "old")), engine_adult)
  /\ evaluate "adult" [("country", VStr "US")] engine_adult
     = (Raise (ValueError "Missing attribute: age"), engine_adult).
Proof.
  split; [|split].
  - apply (proj1 (evaluate_errors "senior" [("age", VInt 70)] engine_adult)).
    vm_compute. reflexivity.
  - eapply (proj1 (proj2 (evaluate_errors "adult" _ engine_adult))
              _ [("height", VInt 180)] "age" (VStr "old")
              [("country", VInt 1)] age_attribute);
      vm_compute; reflexivity.
  - eapply (proj2 (proj2 (evaluate_errors "adult" _ engine_adult)));
      vm_compute; reflexivity.
Defined.





End EvaluateFacts.

(** ** The decision-tree compiler *)

Section CompilerFacts.

Import Compiler.

Lemma compiled_tree_is_shallow_aux a tree :
  transform_to_decision_tree a = Ok tree ->
  (find_conditions a = []
   /\ exists b, eval a [] = Ok b /\ tree = result_node b)
  \/ (exists attr op val bt bf,
        find_conditions a = [(attr, op, val)]
        /\ eval a [(attr, val)] = Ok bt
        /\ eval a [(attr, if PyValue.is_number val
                          then PyValue.minus_one val else val)] = Ok bf
        /\ tree = decision attr op val (result_node bt) (result_node bf)).
Proof.
  unfold transform_to_decision_tree.
  destruct (find_conditions a) as [|[[attr op] val] [|t2 rest]] eqn:Hfind.
  - cbn [create_decision_tree]. intros H. left. split; [done|].
    destruct (eval a []) as [b|] eqn:Hb; [|done]. cbn [bind] in H.
    simplify_eq. by eexists.
  - cbn [create_decision_tree node_eval]. intros H. right.
    destruct (eval a [(attr, val)]) as [bt|] eqn:Ht; [|done].
    cbn [bind] in H.
    destruct (eval a [(attr, _)]) as [bf|] eqn:Hf in H; [|done].
    cbn [bind] in H. simplify_eq. by eexists _, _, _, _, _.
  - intros H. exfalso.
    destruct (transform_fails_on_two_triples a _ _ _ Hfind) as [e He].
    unfold transform_to_decision_tree in He. rewrite Hfind in He. congruence.
Qed.

(** The compiler succeeds in two shapes only: a lone leaf for a syntax tree
    without conditions, and one decision over two leaves for a syntax tree
    with one distinct triple, the leaves being the values of the syntax tree
    at the two representative candidates.  It never builds a tree with two
    decisions. *)
Theorem compiled_tree_is_shallow a tree :
  transform_to_decision_tree a = Ok tree ->
  (find_conditions a = []
   /\ exists b, eval a [] = Ok b /\ tree = result_node b)
  \/ (exists attr op val bt bf,
        find_conditions a = [(attr, op, val)]
        /\ eval a [(attr, val)] = Ok bt
        /\ eval a [(attr, if PyValue.is_number val
                          then PyValue.minus_one val else val)] = Ok bf
        /\ tree = decision attr op val (result_node bt) (result_node bf)).
Proof. intros; eapply compiled_tree_is_shallow_aux; eauto. Qed.

Lemma compiled_tree_is_shallow_witness :
  (find_conditions (condition "age" ">=" (VInt 18) false) = []
   /\ exists b, eval (condition "age" ">=" (VInt 18) false) [] = Ok b
                /\ decision "age" ">=" (VInt 18) (result_node true)
                     (result_node false) = result_node b)
  \/ (exists attr op val bt bf,
        find_conditions (condition "age" ">=" (VInt 18) false)
        = [(attr, op, val)]
        /\ eval (condition "age" ">=" (VInt 18) false) [(attr, val)] = Ok bt
        /\ eval (condition "age" ">=" (VInt 18) false)
             [(attr, if PyValue.is_number val
                     then PyValue.minus_one val else val)] = Ok bf
        /\ decision "age" ">=" (VInt 18) (result_node true) (result_node false)
           = decision attr op val (result_node bt) (result_node bf)).
Proof.
  apply (compiled_tree_is_shallow (condition "age" ">=" (VInt 18) false)).
  vm_compute. reflexivity.
Defined.

Lemma condition_eval_at attribute operator literal invertion v :
  condition_eval attribute operator literal invertion [(attribute, v)]
  = (r <- match compare_with operator v literal with
          | Some r => r
          | None => Ok false
          end ;;
     Ok (invert invertion r)).
Proof.
  unfold condition_eval. cbn [candidate_get]. by rewrite String.eqb_refl.
Qed.

(** The tree of a lone condition, when the two representative comparisons
    are known. *)
Lemma transform_condition attribute operator literal invertion bt bf :
  compare_with operator literal literal = Some (Ok bt) ->
  compare_with operator
    (if PyValue.is_number literal then PyValue.minus_one literal else literal)
    literal = Some (Ok bf) ->
  transform_to_decision_tree (condition attribute operator literal invertion)
  = Ok (decision attribute operator literal
          (result_node (invert invertion bt))
          (result_node (invert invertion bf))).
Proof.
  intros Ht Hf. unfold transform_to_decision_tree.
  cbn [find_conditions set_add existsb app create_decision_tree node_eval
       eval].
  rewrite !condition_eval_at, Ht, Hf. reflexivity.
Qed.

(** How such a tree and the condition itself evaluate on a candidate. *)
Lemma walk_condition_tree attribute operator literal bt bf c :
  walk (decision attribute operator literal (result_node bt) (result_node bf)) c
  = match candidate_get c attribute with
    | None => missing_attribute attribute
    | Some v =>
        match compare_with operator v literal with
        | Some r => b <- r ;; Ok (if b then bt else bf)
        | None =>
            Raise (AttributeError "'NoneType' object has no attribute 'eval'")
        end
    end.
Proof.
  cbn [walk]. destruct (candidate_get c attribute); [|done].
  destruct (compare_with operator v literal) as [[[]|]|]; done.
Qed.

Lemma compare_refl_int (z : Z) : (z ?= z) = Eq /\ (z - 1 ?= z) = Lt.
Proof. split; [apply Z.compare_refl|apply Z.compare_lt_iff; lia]. Qed.

(** Where the compiled tree is right: for a lone condition that tests [=] or
    [>=] against an integer or boolean literal, negated or not, the tree and
    the syntax tree agree on every candidate, errors included. *)
Theorem compiled_condition_sound attribute operator literal invertion :
  operator = "=" \/ operator = ">=" ->
  (exists z, literal = VInt z) \/ (exists b, literal = VBool b) ->
  exists tree,
    transform_to_decision_tree (condition attribute operator literal invertion)
    = Ok tree
    /\ forall c,
        walk tree c = eval (condition attribute operator literal invertion) c.
Proof.
  intros Hop Hlit.
  assert (compare_with operator literal literal = Some (Ok true)
          /\ compare_with operator
               (if PyValue.is_number literal
                then PyValue.minus_one literal else literal) literal
             = Some (Ok false)) as [Ht Hf].
  { destruct Hop as [->| ->], Hlit as [[z ->]|[[] ->]];
      cbn; unfold PyValue.eq, PyValue.ge, PyValue.order; cbn;
      rewrite ?(proj1 (compare_refl_int z)), ?(proj2 (compare_refl_int z));
      done. }
  eexists. split; [exact (transform_condition _ _ _ _ _ _ Ht Hf)|].
  intros c. rewrite walk_condition_tree. cbn [eval]. unfold condition_eval.
  destruct (candidate_get c attribute) as [v|]; [|done].
  destruct (compare_with operator v literal) as [[[]|]|] eqn:Hcmp; try done.
  destruct Hop as [->| ->]; cbn in Hcmp; repeat case_match; done.
Qed.

Lemma compiled_condition_sound_witness :
  exists tree,
    transform_to_decision_tree (condition "age" ">=" (VInt 18) true) = Ok tree
    /\ forall c, walk tree c = eval (condition "age" ">=" (VInt 18) true) c.
Proof.
  apply compiled_condition_sound; [by right|left; by eexists].
Defined.

Lemma int_order_cases (x z : Z) :
  match x ?= z with Gt => true | _ => false end = (z <? x)
  /\ match x ?= z with Gt => false | _ => true end = (x <=? z)
  /\ match x ?= z with Lt => true | _ => false end = (x <? z).
Proof.
  destruct (Z.compare_spec x z), (Z.ltb_spec z x), (Z.leb_spec x z),
    (Z.ltb_spec x z); (repeat split; [reflexivity || lia ..]).
Qed.

(** Where the compiled tree is wrong: for a lone condition on an integer
    literal and a candidate that gives the attribute an integer, the tree of
    [>] answers as if the comparison were always false, the tree of [<=] as if
    it were always true, and the tree of [<] answers the opposite of the
    comparison. *)
Theorem compiled_condition_by_operator attribute (z x : Z) invertion c :
  candidate_get c attribute = Some (VInt x) ->
  (exists tree,
      transform_to_decision_tree (condition attribute ">" (VInt z) invertion)
      = Ok tree
      /\ eval (condition attribute ">" (VInt z) invertion) c
         = Ok (invert invertion (z <? x))
      /\ walk tree c = Ok (invert invertion false))
  /\ (exists tree,
        transform_to_decision_tree (condition attribute "<=" (VInt z) invertion)
        = Ok tree
        /\ eval (condition attribute "<=" (VInt z) invertion) c
           = Ok (invert invertion (x <=? z))
        /\ walk tree c = Ok (invert invertion true))
  /\ (exists tree,
        transform_to_decision_tree (condition attribute "<" (VInt z) invertion)
        = Ok tree
        /\ eval (condition attribute "<" (VInt z) invertion) c
           = Ok (invert invertion (x <? z))
        /\ walk tree c = Ok (invert invertion (negb (x <? z)))).
Proof.
  intros Hget.
  destruct (int_order_cases x z) as (Hgt & Hle & Hlt).
  destruct (compare_refl_int z) as [Hzz Hz1].
  split; [|split].
  - eexists. split; [apply transform_condition; cbn;
                     unfold PyValue.gt, PyValue.order; cbn;
                     rewrite ?Hzz, ?Hz1; reflexivity|].
    rewrite walk_condition_tree. cbn [eval]. unfold condition_eval.
    rewrite Hget. cbn. unfold PyValue.gt, PyValue.order. cbn.
    rewrite Hgt. split; [done|]. by destruct (z <? x).
  - eexists. split; [apply transform_condition; cbn;
                     unfold PyValue.le, PyValue.order; cbn;
                     rewrite ?Hzz, ?Hz1; reflexivity|].
    rewrite walk_condition_tree. cbn [eval]. unfold condition_eval.
    rewrite Hget. cbn. unfold PyValue.le, PyValue.order. cbn.
    rewrite Hle. split; [done|]. by destruct (x <=? z).
  - eexists. split; [apply transform_condition; cbn;
                     unfold PyValue.lt, PyValue.order; cbn;
                     rewrite ?Hzz, ?Hz1; reflexivity|].
    rewrite walk_condition_tree. cbn [eval]. unfold condition_eval.
    rewrite Hget. cbn. unfold PyValue.lt, PyValue.order. cbn.
    rewrite Hlt. split; [done|]. by destruct (x <? z), invertion.
Qed.

Lemma compiled_condition_by_operator_witness :
  (exists tree,
      transform_to_decision_tree (condition "age" ">" (VInt 18) false) = Ok tree
      /\ eval (condition "age" ">" (VInt 18) false) [("age", VInt 30)]
         = Ok (invert false (18 <? 30))
      /\ walk tree [("age", VInt 30)] = Ok (invert false false))
  /\ (exists tree,
        transform_to_decision_tree (condition "age" "<=" (VInt 18) false)
        = Ok tree
        /\ eval (condition "age" "<=" (VInt 18) false) [("age", VInt 30)]
           = Ok (invert false (30 <=? 18))
        /\ walk tree [("age", VInt 30)] = Ok (invert false true))
  /\ (exists tree,
        transform_to_decision_tree (condition "age" "<" (VInt 18) false)
        = Ok tree
        /\ eval (condition "age" "<" (VInt 18) false) [("age", VInt 30)]
           = Ok (invert false (30 <? 18))
        /\ walk tree [("age", VInt 30)] = Ok (invert false (negb (30 <? 18)))).
Proof.
  apply (compiled_condition_by_operator "age" 18 30 false [("age", VInt 30)]).
  reflexivity.
Defined.

(** The tree of an equality with a string literal has two equal leaves: on
    a candidate that gives the attribute a string it answers as if the
    strings were equal, whatever they are. *)
Theorem compiled_string_equality_is_constant attribute s s' invertion c :
  candidate_get c attribute = Some (VStr s') ->
  exists tree,
    transform_to_decision_tree (condition attribute "=" (VStr s) invertion)
    = Ok tree
    /\ eval (condition attribute "=" (VStr s) invertion) c
       = Ok (invert invertion (PyStr.lower s' =? PyStr.lower s)%string)
    /\ walk tree c = Ok (invert invertion true).
Proof.
  intros Hget. eexists.
  split; [apply transform_condition; cbn; rewrite String.eqb_refl;
          reflexivity|].
  rewrite walk_condition_tree. cbn [eval]. unfold condition_eval.
  rewrite Hget. cbn. split; [done|].
  by destruct (PyStr.lower s' =? PyStr.lower s)%string.
Qed.

Lemma compiled_string_equality_is_constant_witness :
  exists tree,
    transform_to_decision_tree (condition "country" "=" (VStr "us") false)
    = Ok tree
    /\ eval (condition "country" "=" (VStr "us") false) [("country", VStr "CA")]
       = Ok (invert false (PyStr.lower "CA" =? PyStr.lower "us")%string)
    /\ walk tree [("country", VStr "CA")] = Ok (invert false true).
Proof.
  apply (compiled_string_equality_is_constant "country" "us" "CA" false).
  reflexivity.
Defined.

End CompilerFacts.

(** ** The parser *)

Section ParserFacts.

Import RuleParser.

#[local] Arguments end_of_iteration : simpl never.
#[local] Arguments member : simpl never.
#[local] Arguments PyNumber.literal : simpl never.
#[local] Arguments PyStr.strip : simpl never.

Lemma parse_condition_shape_aux (tokens : list string) pos cond new_pos :
  parse_condition tokens pos = Ok (cond, new_pos) ->
  exists (invertion : bool) (start : nat) (attribute operator text : string),
    start = (if invertion then S pos else pos)
    /\ (invertion = true <-> tokens !! pos = Some "NOT")
    /\ tokens !! start = Some attribute
    /\ tokens !! S start = Some operator
    /\ tokens !! S (S start) = Some text
    /\ new_pos = S (S (S start))
    /\ cond = condition attribute operator
                (PyNumber.literal (PyStr.strip (fun c => (c =? "'")%char) text))
                invertion
    /\ parsed_ok cond = true.
Proof.
  unfold parse_condition. intros H.
  destruct (tokens !! pos) as [first|] eqn:Hfirst; [|done].
  destruct (String.eqb_spec first "NOT") as [->|Hnot].
  - destruct (length tokens <=? S pos)%nat; [done|]. cbn [bind] in H.
    destruct (tokens !! S pos) as [attribute|] eqn:Hattr; [|done].
    destruct (member attribute VALID_OPERATORS
              || member attribute VALID_LOGICAL_OPERATORS) eqn:Hkw; [done|].
    destruct (tokens !! S (S pos)) as [operator|] eqn:Hop; [|done].
    destruct (member operator VALID_OPERATORS) eqn:Hvalid; [|done].
    cbn [negb] in H.
    destruct (tokens !! S (S (S pos))) as [text|] eqn:Htext; [|done].
    simplify_eq. exists true, (S pos), attribute, operator, text.
    repeat split; try done. cbn [parsed_ok]. by rewrite Hvalid, Hkw.
  - cbn [bind] in H. rewrite Hfirst in H.
    destruct (member first VALID_OPERATORS
              || member first VALID_LOGICAL_OPERATORS) eqn:Hkw; [done|].
    destruct (tokens !! S pos) as [operator|] eqn:Hop; [|done].
    destruct (member operator VALID_OPERATORS) eqn:Hvalid; [|done].
    cbn [negb] in H.
    destruct (tokens !! S (S pos)) as [text|] eqn:Htext; [|done].
    simplify_eq. exists false, pos, first, operator, text.
    repeat split; try done; try congruence.
    cbn [parsed_ok]. by rewrite Hvalid, Hkw.
Qed.



Lemma end_of_iteration_inv tokens pos op next a p :
  end_of_iteration tokens pos (Some op) next = Some (Ok (a, p)) ->
  ((length tokens <= pos)%nat /\ a = to_ast op /\ p = pos)
  \/ ((pos < length tokens)%nat /\ next pos (Some op) = Some (Ok (a, p))).
Proof.
  unfold end_of_iteration.
  destruct (Nat.leb_spec (length tokens) pos) as [Hle|Hlt]; intros H;
    [left|right].
  - by simplify_eq.
  - done.
Qed.

Lemma member_and_or token :
  member token ["AND"; "OR"] = true ->
  PyStr.lower token = "and" \/ PyStr.lower token = "or".
Proof.
  unfold member. cbn [existsb].
  destruct (String.eqb_spec token "AND") as [->|]; [by left|].
  destruct (String.eqb_spec token "OR") as [->|]; [by right|done].
Qed.

Lemma parsed_ok_add op child :
  parsed_ok (to_ast op) = true -> parsed_ok child = true ->
  parsed_ok (to_ast (add op child)) = true.
Proof.
  destruct op as [o children]. unfold to_ast, add. cbn [parsed_ok fst snd].
  rewrite forallb_app. cbn [forallb].
  intros [-> ->]%andb_true_iff. by intros ->.
Qed.

Lemma parsed_ok_connective token op :
  member token ["AND"; "OR"] = true ->
  (forall o, op = Some o -> parsed_ok (to_ast o) = true) ->
  parsed_ok
    (to_ast match op with
            | None => (PyStr.lower token, [])
            | Some o =>
                if negb (o.1 =? PyStr.lower token)%string
                then (PyStr.lower token, [to_ast o])
                else o
            end) = true.
Proof.
  intros Htoken Hop.
  assert (member (PyStr.lower token) ["and"; "or"] = true) as Hlow.
  { by destruct (member_and_or _ Htoken) as [-> | ->]. }
  destruct op as [o|].
  - specialize (Hop o eq_refl).
    destruct (negb (o.1 =? PyStr.lower token)%string); [|done].
    unfold to_ast at 1. cbn [parsed_ok fst snd forallb].
    by rewrite Hlow, Hop.
  - unfold to_ast. cbn [parsed_ok fst snd forallb]. by rewrite Hlow.
Qed.

(** What a successful run of the loop returns: a position within the
    tokens, past the start when no [operation] was under way, and a syntax
    tree the parser can build. *)
Lemma parse_loop_result fuel tokens : forall pos cur a p,
  parse_loop fuel tokens pos cur = Some (Ok (a, p)) ->
  (p <= length tokens)%nat
  /\ (cur = None -> (pos < p)%nat)
  /\ ((forall op, cur = Some op -> parsed_ok (to_ast op) = true) ->
      parsed_ok a = true).
Proof.
  induction fuel as [|fuel IH]; intros pos cur a p H; [done|].
  pose proof (parse_loop_pos _ _ _ _ _ _ H) as Hpos.
  simpl in H.
  destruct (tokens !! pos) as [token|] eqn:Htok; [|done].
  pose proof (lookup_lt_Some _ _ _ Htok) as Hlen.
  destruct (token =? "(")%string.
  { destruct (length tokens <=? S pos)%nat; [done|].
    destruct (parse_loop fuel tokens (S pos) None)
      as [[[sub_expr new_pos]|]|] eqn:Hnested; [|done..].
    pose proof (parse_loop_pos _ _ _ _ _ _ Hnested) as Hnpos.
    destruct (IH _ _ _ _ Hnested) as (_ & _ & Hsub).
    destruct (tokens !! new_pos) as [t|] eqn:Hclose; [|done].
    apply lookup_lt_Some in Hclose.
    destruct (negb (t =? ")")%string); [done|].
    destruct cur as [op|]; [|simplify_eq; repeat split; [lia..|auto]].
    apply end_of_iteration_inv in H as [(Hend & -> & ->)|[Hlt H]].
    - repeat split; [lia|done|]. intros Hcur.
      apply parsed_ok_add; [by apply Hcur|by apply Hsub].
    - destruct (IH _ _ _ _ H) as (Hp & _ & Hok).
      repeat split; [done..|]. intros Hcur. apply Hok.
      intros o [= <-]. apply parsed_ok_add; [by apply Hcur|by apply Hsub]. }
  destruct (token =? ")")%string.
  { destruct cur as [op|]; [|done]. simplify_eq.
    repeat split; [lia|done|]. intros Hcur. by apply Hcur. }
  destruct (member token ["AND"; "OR"]) eqn:Hkw.
  { apply end_of_iteration_inv in H as [(Hend & -> & ->)|[Hlt H]].
    - repeat split; [lia..|]. intros Hcur. by apply parsed_ok_connective.
    - pose proof (parse_loop_pos _ _ _ _ _ _ H) as Hnext.
      destruct (IH _ _ _ _ H) as (Hp & _ & Hok).
      repeat split; [done|lia|]. intros Hcur. apply Hok.
      intros o [= <-]. by apply parsed_ok_connective. }
  destruct (parse_condition tokens pos) as [[cond new_pos]|] eqn:Hcond;
    [|done].
  destruct (parse_condition_shape_aux _ _ _ _ Hcond)
    as (inv & start & attribute & operator & text
        & -> & _ & _ & _ & Htext & -> & _ & Hok).
  apply lookup_lt_Some in Htext.
  destruct cur as [op|];
    [|simplify_eq; repeat split; [lia|destruct inv; lia|done]].
  apply end_of_iteration_inv in H as [(Hend & -> & ->)|[Hlt H]].
  - repeat split; [lia|done|]. intros Hcur.
    apply parsed_ok_add; [by apply Hcur|done].
  - destruct (IH _ _ _ _ H) as (Hp & _ & Hnext).
    repeat split; [done..|]. intros Hcur. apply Hnext.
    intros o [= <-]. apply parsed_ok_add; [by apply Hcur|done].
Qed.

Lemma parse_expression_result_aux tokens start a p :
  parse_expression tokens start = Ok (a, p) ->
  (start < p <= length tokens)%nat /\ parsed_ok a = true.
Proof.
  intros H. unfold parse_expression in H.
  destruct (length tokens <=? start)%nat; [done|].
  destruct (parse_loop (S (length tokens)) tokens start None)
    as [r|] eqn:Hloop; [|done].
  subst r. destruct (parse_loop_result _ _ _ _ _ _ Hloop) as (Hp & Hs & Hok).
  repeat split; [by apply Hs|done|by apply Hok].
Qed.

(** A successful [parse_expression] consumes at least one token, never reads
    past the end, and returns a tree the parser can build. *)
Theorem parse_expression_result tokens start a p :
  parse_expression tokens start = Ok (a, p) ->
  (start < p <= length tokens)%nat /\ parsed_ok a = true.
Proof. intros; eapply parse_expression_result_aux; eauto. Qed.

Lemma parse_expression_result_witness :
  (1 < 4 <= length ["("; "age"; ">="; "18"; ")"; "AND"])%nat
  /\ parsed_ok (condition "age" ">=" (VInt 18) false) = true.
Proof.
  apply (parse_expression_result ["("; "age"; ">="; "18"; ")"; "AND"] 1).
  vm_compute. reflexivity.
Defined.

Lemma tokenize_rule_tokens text tokens :
  tokenize_rule text = Ok tokens -> tokens = tokens_of text.
Proof.
  unfold tokenize_rule. destruct (negb _); [done|].
  destruct (validate_tokens (tokens_of text)); [|done].
  cbn [bind]. by intros [= <-].
Qed.

(** A text parses when its tokens are balanced and [parse_expression]
    consumes them all. *)
Lemma parse_rule_ok_inv text a :
  parse_rule text = Ok a ->
  tokenize_rule text = Ok (tokens_of text)
  /\ parse_expression (tokens_of text) 0 = Ok (a, length (tokens_of text)).
Proof.
  unfold parse_rule. intros H.
  destruct (tokenize_rule text) as [tokens|] eqn:Htok;
    [|by destruct e].
  pose proof (tokenize_rule_tokens _ _ Htok) as ->. split; [done|].
  cbn [bind] in H.
  destruct (parse_expression (tokens_of text) 0) as [[a' p]|] eqn:Hparse;
    [|by destruct e].
  cbn [bind] in H.
  destruct (parse_expression_result_aux _ _ _ _ Hparse) as [[_ Hp] _].
  destruct (tokens_of text !! p) eqn:Hrest; [done|].
  apply lookup_ge_None in Hrest. simplify_eq.
  do 2 f_equal. lia.
Qed.

(** Every rule text that parses yields a syntax tree whose conditions use
    one of the five operators on attributes that are no keywords, and whose
    operations are [and] or [or] nodes that are not negated. *)
Theorem parse_rule_well_formed text a :
  parse_rule text = Ok a -> parsed_ok a = true.
Proof.
  intros [_ H]%parse_rule_ok_inv.
  by apply parse_expression_result_aux in H as [_ ?].
Qed.

Lemma parse_rule_well_formed_witness :
  parsed_ok
    (operation "or"
       [operation "and"
          [condition "a" ">" (VInt 1) false;
           condition "b" ">" (VInt 2) false] false;
        condition "c" ">" (VInt 3) false] false) = true.
Proof.
  apply (parse_rule_well_formed "AND a > 1 b > 2 OR c > 3").
  vm_compute. reflexivity.
Defined.

(** When the first token opens a condition, [parse_expression] is
    [parse_condition]: it returns after that condition. *)
Lemma parse_expression_condition_first tokens first :
  tokens !! 0%nat = Some first ->
  member first ["("; ")"; "AND"; "OR"] = false ->
  parse_expression tokens 0 = parse_condition tokens 0.
Proof.
  intros Hfirst Hplain. unfold parse_expression.
  pose proof (lookup_lt_Some _ _ _ Hfirst) as Hlen.
  destruct (Nat.leb_spec (length tokens) 0); [lia|].
  cbn [parse_loop]. rewrite Hfirst.
  unfold member in Hplain. cbn [existsb] in Hplain.
  apply orb_false_iff in Hplain as [-> Hplain].
  apply orb_false_iff in Hplain as [-> Hplain].
  unfold member. cbn [existsb]. rewrite Hplain.
  by destruct (parse_condition tokens 0) as [[cond new_pos]|].
Qed.

(** Infix text never parses: a rule text whose first token is neither a
    parenthesis nor [AND] or [OR] parses only when it is one condition and
    nothing else, three tokens or four with [NOT]. *)
Theorem rule_text_starting_with_a_condition text a first :
  parse_rule text = Ok a ->
  tokens_of text !! 0%nat = Some first ->
  member first ["("; ")"; "AND"; "OR"] = false ->
  exists attribute operator literal invertion,
    a = condition attribute operator literal invertion
    /\ length (tokens_of text) = (if invertion then 4 else 3)%nat.
Proof.
  intros [_ Hparse]%parse_rule_ok_inv Hfirst Hplain.
  rewrite (parse_expression_condition_first _ _ Hfirst Hplain) in Hparse.
  apply parse_condition_shape_aux in Hparse
    as (inv & start & attribute & operator & text'
        & -> & _ & _ & _ & _ & Hlen & -> & _).
  eexists _, _, _, inv. split; [done|]. rewrite Hlen. by destruct inv.
Qed.

Lemma rule_text_starting_with_a_condition_witness :
  exists attribute operator literal invertion,
    condition "age" ">=" (VInt 18) true
    = condition attribute operator literal invertion
    /\ length (tokens_of "NOT age>=18") = (if invertion then 4 else 3)%nat.
Proof.
  apply (rule_text_starting_with_a_condition "NOT age>=18" _ "NOT");
    vm_compute; reflexivity.
Defined.

Lemma end_of_iteration_mono tokens pos cur next next' r :
  (forall pos' cur', next pos' cur' = Some r -> next' pos' cur' = Some r) ->
  end_of_iteration tokens pos cur next = Some r ->
  end_of_iteration tokens pos cur next' = Some r.
Proof.
  unfold end_of_iteration. intros Hnext.
  destruct cur; [destruct (length tokens <=? pos)%nat|]; auto.
Qed.

(** More fuel does not change a result. *)
Lemma parse_loop_mono fuel tokens : forall fuel' pos cur r,
  (fuel <= fuel')%nat ->
  parse_loop fuel tokens pos cur = Some r ->
  parse_loop fuel' tokens pos cur = Some r.
Proof.
  induction fuel as [|fuel IH]; intros fuel' pos cur r Hle H; [done|].
  destruct fuel' as [|fuel']; [lia|].
  assert (forall pos' cur', parse_loop fuel tokens pos' cur' = Some r ->
                            parse_loop fuel' tokens pos' cur' = Some r)
    as Hnext by (intros; apply (IH fuel'); [lia|done]).
  simpl in *.
  destruct (tokens !! pos) as [token|]; [|done].
  destruct (token =? "(")%string.
  { destruct (length tokens <=? S pos)%nat; [done|].
    destruct (parse_loop fuel tokens (S pos) None) as [nested|] eqn:Hnested;
      [|done].
    rewrite (IH fuel' _ _ nested ltac:(lia) Hnested).
    destruct nested as [[sub_expr new_pos]|]; [|done].
    destruct (match tokens !! new_pos with
              | Some t => negb (t =? ")")%string
              | None => true
              end); [done|].
    destruct cur; [|done]. by apply (end_of_iteration_mono _ _ _ _ _ _ Hnext). }
  destruct (token =? ")")%string; [done|].
  destruct (member token ["AND"; "OR"]).
  { by apply (end_of_iteration_mono _ _ _ _ _ _ Hnext). }
  destruct (parse_condition tokens pos) as [[cond new_pos]|]; [|done].
  destruct cur; [|done]. by apply (end_of_iteration_mono _ _ _ _ _ _ Hnext).
Qed.

(** Parentheses around a whole rule are transparent, and nothing may follow
    the parenthesis that closes the first group: a rule text that starts
    with an opening parenthesis parses only when its last token is the
    closing parenthesis that ends the expression inside, and its tree is the
    tree of that expression. *)
Theorem rule_text_in_parentheses text a :
  parse_rule text = Ok a ->
  tokens_of text !! 0%nat = Some "(" ->
  tokens_of text !! (length (tokens_of text) - 1)%nat = Some ")"
  /\ parse_expression (tokens_of text) 1
     = Ok (a, (length (tokens_of text) - 1)%nat).
Proof.
  intros [_ Hparse]%parse_rule_ok_inv Hfirst.
  unfold parse_expression in *.
  destruct (length (tokens_of text) <=? 0)%nat; [done|].
  destruct (parse_loop _ _ 0 None) as [r|] eqn:Hloop; [|done]. subst r.
  cbn [parse_loop] in Hloop. rewrite Hfirst in Hloop.
  cbn [String.eqb Ascii.eqb Bool.eqb] in Hloop.
  destruct (length (tokens_of text) <=? 1)%nat; [done|].
  destruct (parse_loop (length (tokens_of text)) (tokens_of text) 1 None)
    as [[[sub_expr new_pos]|]|] eqn:Hnested; [|done..].
  destruct (tokens_of text !! new_pos) as [t|] eqn:Hclose; [|done].
  destruct (String.eqb_spec t ")") as [->|]; [|done].
  cbn [negb] in Hloop. simplify_eq.
  replace (length (tokens_of text) - 1)%nat with new_pos by lia.
  split; [done|].
  apply (parse_loop_mono _ _ (S (length (tokens_of text)))) in Hnested;
    [|lia].
  by rewrite Hnested.
Qed.

Lemma rule_text_in_parentheses_witness :
  tokens_of "(age >= 18)" !! (length (tokens_of "(age >= 18)") - 1)%nat
  = Some ")"
  /\ parse_expression (tokens_of "(age >= 18)") 1
     = Ok (condition "age" ">=" (VInt 18) false,
           (length (tokens_of "(age >= 18)") - 1)%nat).
Proof.
  apply (rule_text_in_parentheses "(age >= 18)"); vm_compute; reflexivity.
Defined.





End ParserFacts.

(** ** The engine: attributes of a rule, and combined rules *)

Section RuleFacts.

Import Engine.

(** Induction on a syntax tree, with the hypothesis on every child. *)
Lemma ast_forall_ind (P : ast -> Prop) :
  (forall attribute operator literal invertion,
      P (condition attribute operator literal invertion)) ->
  (forall operator children invertion,
      Forall P children -> P (operation operator children invertion)) ->
  forall a, P a.
Proof.
  intros Hcond Hop. fix IH 1. intros [attribute operator literal inv|o ch inv].
  - apply Hcond.
  - apply Hop. induction ch as [|child ch IHch]; constructor; [apply IH|done].
Qed.

Lemma validate_attributes_spec_aux cat a :
  match validate_attributes cat a with
  | Ok _ => forall x, x ∈ attributes_of a -> is_Some (attributes cat !! x)
  | Raise e =>
      exists x, x ∈ attributes_of a /\ attributes cat !! x = None
                /\ e = ValueError ("Unknown attribute in rule: " ++ x)
  end.
Proof.
  induction a as [attribute operator literal inv|operator children inv IH]
    using ast_forall_ind.
  - cbn [validate_attributes attributes_of].
    destruct (attributes cat !! attribute) eqn:Hattr.
    + intros x ->%list_elem_of_singleton. by rewrite Hattr.
    + exists attribute. by rewrite list_elem_of_singleton.
  - cbn [validate_attributes attributes_of].
    induction IH as [|child children Hchild _ IHchildren].
    + cbn. intros x Hx. by apply elem_of_nil in Hx.
    + cbn [map_result map concat].
      destruct (validate_attributes cat child) as [[]|e]; cbn [bind].
      * destruct (map_result (validate_attributes cat) children);
          cbn [bind] in *.
        -- intros x [Hx|Hx]%elem_of_app; auto.
        -- destruct IHchildren as (x & Hx & Hnone & ->).
           exists x. rewrite elem_of_app. auto.
      * destruct Hchild as (x & Hx & Hnone & ->).
        exists x. rewrite elem_of_app. auto.
Qed.

(** [validate_attributes] accepts a syntax tree exactly when the catalog
    knows the attribute of every condition; when it refuses, the error names
    an attribute of the tree that the catalog lacks. *)
Theorem validate_attributes_spec cat a :
  match validate_attributes cat a with
  | Ok _ => forall x, x ∈ attributes_of a -> is_Some (attributes cat !! x)
  | Raise e =>
      exists x, x ∈ attributes_of a /\ attributes cat !! x = None
                /\ e = ValueError ("Unknown attribute in rule: " ++ x)
  end.
Proof. intros; eapply validate_attributes_spec_aux; eauto. Qed.

(** [create_rule] refuses a rule that names an unknown attribute with a
    [ValueError] that names such an attribute, and changes nothing. *)
Theorem create_rule_unknown_attribute name text self a unknown :
  rules self !! name = None ->
  parse_rule text = Ok a ->
  unknown ∈ attributes_of a ->
  attributes (catalog self) !! unknown = None ->
  exists x,
    x ∈ attributes_of a /\ attributes (catalog self) !! x = None
    /\ create_rule name text self
       = (Raise (ValueError ("Unknown attribute in rule: " ++ x)), self).
Proof.
  intros Hfresh Hparse Hin Hnone.
  rewrite create_rule_run, Hfresh. unfold build_rule.
  rewrite Hparse. cbn [bind].
  pose proof (validate_attributes_spec_aux (catalog self) a) as Hspec.
  destruct (validate_attributes (catalog self) a) as [[]|e].
  - destruct (Hspec unknown Hin) as [d Hd]. congruence.
  - destruct Hspec as (x & Hx & Hxnone & ->). by exists x.
Qed.

Lemma create_rule_unknown_attribute_witness :
  exists x,
    x ∈ attributes_of (condition "bogus" ">" (VInt 1) false)
    /\ attributes (catalog engine_adult) !! x = None
    /\ create_rule "r" "bogus > 1" engine_adult
       = (Raise (ValueError ("Unknown attribute in rule: " ++ x)),
          engine_adult).
Proof.
  apply (create_rule_unknown_attribute "r" "bogus > 1" engine_adult _ "bogus").
  - vm_compute. reflexivity.
  - vm_compute. reflexivity.
  - cbn. by apply list_elem_of_singleton.
  - vm_compute. reflexivity.
Defined.

Lemma combine_rules_run name rule_names operator self :
  combine_rules name rule_names operator self
  = if negb (RuleParser.member (PyStr.lower operator) ["and"; "or"])
    then (Raise (ValueError "Operator must be 'and' or 'or'"), self)
    else match rules self !! name with
         | Some _ =>
             (Raise (ValueError ("Rule " ++ name ++ " already exists")), self)
         | None =>
             match build_combined (rules self) name rule_names operator with
             | Ok rule => (Ok rule, store rule self)
             | Raise e => (Raise e, self)
             end
         end.
Proof.
  unfold combine_rules, build_combined, mbind, get_rules, lift, raise, ret,
    put_rules, store.
  destruct (negb _); [done|]. cbn beta iota.
  destruct (rules self !! name); [done|].
  destruct (lookup_rules (rules self) rule_names) as [sources|]; [|done].
  cbn [bind].
  destruct (lookup_rules (rules self) (distinct rule_names)); [|done].
  cbn [bind].
  by destruct (Compiler.transform_to_decision_tree _).
Qed.

Lemma lookup_rules_ok rs rule_names found :
  lookup_rules rs rule_names = Ok found ->
  Forall2 (fun n r => rs !! n = Some r) rule_names found.
Proof.
  revert found. induction rule_names as [|n ns IH]; intros found H.
  - cbn in H. simplify_eq. constructor.
  - cbn [lookup_rules map_result] in H.
    destruct (rs !! n) as [r|] eqn:Hn; [|done]. cbn [bind] in H.
    fold (lookup_rules rs ns) in H.
    destruct (lookup_rules rs ns) as [rest|]; [|done]. cbn [bind] in H.
    simplify_eq. constructor; [done|by apply IH].
Qed.

(** A [combine_rules] that returns was given [and] or [or] in any case, a
    free name and names of existing rules.  The new rule is the [operation]
    over the syntax trees of the named rules, each taken once; its text
    joins their texts in parentheses with the operator as given; and the
    named rules together hold at most one distinct condition, or the compiler
    would have failed. *)
Theorem combine_rules_success name rule_names operator self rule self' :
  combine_rules name rule_names operator self = (Ok rule, self') ->
  RuleParser.member (PyStr.lower operator) ["and"; "or"] = true
  /\ rules self !! name = None
  /\ self' = store rule self
  /\ rule_name rule = name
  /\ (exists sources members,
        Forall2 (fun n r => rules self !! n = Some r) rule_names sources
        /\ Forall2 (fun n r => rules self !! n = Some r)
             (distinct rule_names) members
        /\ rule_ast rule
           = operation (PyStr.lower operator) (rule_ast <$> members) false
        /\ rule_str rule
           = PyStr.join (" " ++ operator ++ " ")
               ((fun r => "(" ++ rule_str r ++ ")") <$> sources))
  /\ Compiler.transform_to_decision_tree (rule_ast rule)
     = Ok (decision_tree rule)
  /\ (length (Compiler.find_conditions (rule_ast rule)) <= 1)%nat.
Proof.
  rewrite combine_rules_run. intros H.
  destruct (RuleParser.member (PyStr.lower operator) ["and"; "or"]); [|done].
  cbn [negb] in H.
  destruct (rules self !! name); [done|].
  destruct (build_combined _ _ _ _) as [r|] eqn:Hbuild; [|done].
  simplify_eq. unfold build_combined in Hbuild.
  destruct (lookup_rules (rules self) rule_names) as [sources|] eqn:Hsrc;
    [|done].
  cbn [bind] in Hbuild.
  destruct (lookup_rules (rules self) (distinct rule_names))
    as [members|] eqn:Hmem; [|done].
  cbn [bind] in Hbuild.
  destruct (Compiler.transform_to_decision_tree _) as [tree|] eqn:Htree;
    [|done].
  cbn [bind] in Hbuild. simplify_eq. cbn [rule_name rule_ast rule_str].
  repeat split; try done.
  - exists sources, members.
    repeat split; try done; by apply lookup_rules_ok.
  - cbn [decision_tree].
    destruct (compiled_tree_is_shallow_aux _ _ Htree)
      as [[-> _]|(? & ? & ? & ? & ? & -> & _)]; cbn [length]; lia.
Qed.

Lemma combine_rules_success_witness :
  exists rule,
    RuleParser.member (PyStr.lower "AND") ["and"; "or"] = true
    /\ rules engine_adult !! "grown" = None
    /\ (combine_rules "grown" ["adult"; "adult"] "AND" engine_adult).2
       = store rule engine_adult
    /\ rule_name rule = "grown"
    /\ (exists sources members,
          Forall2 (fun n r => rules engine_adult !! n = Some r)
            ["adult"; "adult"] sources
          /\ Forall2 (fun n r => rules engine_adult !! n = Some r)
               (distinct ["adult"; "adult"]) members
          /\ rule_ast rule
             = operation (PyStr.lower "AND") (rule_ast <$> members) false
          /\ rule_str rule
             = PyStr.join (" " ++ "AND" ++ " ")
                 ((fun r => "(" ++ rule_str r ++ ")") <$> sources))
    /\ Compiler.transform_to_decision_tree (rule_ast rule)
       = Ok (decision_tree rule)
    /\ (length (Compiler.find_conditions (rule_ast rule)) <= 1)%nat.
Proof.
  eexists.
  apply (combine_rules_success "grown" ["adult"; "adult"] "AND" engine_adult).
  vm_compute. reflexivity.
Defined.

Lemma transform_condition_inv attribute operator literal invertion tree :
  Compiler.transform_to_decision_tree
    (condition attribute operator literal invertion) = Ok tree ->
  exists ft ff,
    match compare_with operator literal literal with
    | Some r => r
    | None => Ok false
    end = Ok ft
    /\ match compare_with operator
               (if PyValue.is_number literal
                then PyValue.minus_one literal else literal) literal with
       | Some r => r
       | None => Ok false
       end = Ok ff
    /\ tree = decision attribute operator literal
                (result_node (invert invertion ft))
                (result_node (invert invertion ff)).
Proof.
  unfold Compiler.transform_to_decision_tree.
  cbn [Compiler.find_conditions Compiler.set_add existsb app
       Compiler.create_decision_tree Compiler.node_eval eval].
  rewrite !condition_eval_at.
  destruct (match compare_with operator literal literal with
            | Some r => r
            | None => Ok false
            end) as [ft|]; [|done].
  cbn [bind].
  destruct (match compare_with operator _ literal with
            | Some r => r
            | None => Ok false
            end) as [ff|]; [|done].
  cbn [bind]. intros [= <-]. by exists ft, ff.
Qed.

Lemma connect_pair operator x y :
  (if (operator =? "and")%string
   then forallb id [x; y] else existsb id [x; y]) = connect operator x y.
Proof.
  unfold connect. cbn [forallb existsb id].
  destruct (operator =? "and")%string; by destruct x, y.
Qed.

Lemma connect_single operator x :
  (if (operator =? "and")%string
   then forallb id [x] else existsb id [x]) = connect operator x x.
Proof.
  unfold connect. cbn [forallb existsb id].
  destruct (operator =? "and")%string; by destruct x.
Qed.

(** Where [combine_rules] keeps its promise: two rules that are the same
    condition, each negated or not, combine, and the combined rule evaluates
    to the conjunction or disjunction of the two on every candidate, errors
    included.  (The literal equals itself: it is no NaN.) *)
Theorem combine_same_condition name n1 n2 operator self r1 r2
    attribute op literal inv1 inv2 :
  RuleParser.member (PyStr.lower operator) ["and"; "or"] = true ->
  rules self !! name = None ->
  rules self !! n1 = Some r1 ->
  rules self !! n2 = Some r2 ->
  rule_ast r1 = condition attribute op literal inv1 ->
  rule_ast r2 = condition attribute op literal inv2 ->
  Compiler.transform_to_decision_tree (rule_ast r1) = Ok (decision_tree r1) ->
  Compiler.transform_to_decision_tree (rule_ast r2) = Ok (decision_tree r2) ->
  PyValue.eq literal literal = true ->
  exists rule,
    combine_rules name [n1; n2] operator self = (Ok rule, store rule self)
    /\ forall c,
        (evaluate name c (store rule self)).1
        = (x <- (evaluate n1 c self).1 ;;
           y <- (evaluate n2 c self).1 ;;
           Ok (connect (PyStr.lower operator) x y)).
Proof.
  intros Hop Hfresh H1 H2 Ha1 Ha2 Ht1 Ht2 Hlit.
  rewrite Ha1 in Ht1. rewrite Ha2 in Ht2.
  destruct (transform_condition_inv _ _ _ _ _ Ht1) as (ft & ff & Hft & Hff & Htree1).
  destruct (transform_condition_inv _ _ _ _ _ Ht2) as (ft' & ff' & Hft' & Hff' & Htree2).
  assert (ft' = ft) as -> by congruence.
  assert (ff' = ff) as -> by congruence.
  set (low := PyStr.lower operator) in *.
  assert (exists tree,
             build_combined (rules self) name [n1; n2] operator
             = Ok {| rule_name := name;
                     rule_str := PyStr.join (" " ++ operator ++ " ")
                                   ["(" ++ rule_str r1 ++ ")";
                                    "(" ++ rule_str r2 ++ ")"];
                     rule_ast :=
                       operation low
                         (rule_ast <$> (if decide (n2 = n1)
                                        then [r1] else [r1; r2])) false;
                     decision_tree := tree |}
             /\ tree = decision attribute op literal
                         (result_node (connect low (invert inv1 ft)
                                         (invert inv2 ft)))
                         (result_node (connect low (invert inv1 ff)
                                         (invert inv2 ff))))
    as (tree & Hbuild & Htree).
  { unfold build_combined.
    cbn [lookup_rules map_result distinct filter list_filter].
    rewrite H1, H2. cbn [bind].
    destruct (decide (n2 = n1)) as [->|Hne].
    - assert (r2 = r1) as -> by congruence.
      assert (inv2 = inv1) as -> by congruence.
      rewrite decide_False by (by intros []).
      cbn [map_result bind fmap list_fmap]. rewrite Ha1. fold low.
      unfold Compiler.transform_to_decision_tree.
      cbn [Compiler.find_conditions fold_left Compiler.set_update
           Compiler.set_add existsb app Compiler.create_decision_tree
           Compiler.node_eval eval map_result].
      rewrite !condition_eval_at, Hft, Hff. cbn [bind invert].
      rewrite !connect_single.
      by eexists.
    - rewrite decide_True by done.
      cbn [map_result]. rewrite H2.
      cbn [bind fmap list_fmap]. rewrite Ha1, Ha2. fold low.
      unfold Compiler.transform_to_decision_tree.
      cbn [Compiler.find_conditions fold_left Compiler.set_update
           Compiler.set_add existsb app].
      match goal with
      | |- context [Compiler.set_add ?t ?l] =>
          assert (Compiler.set_add t l = l) as ->
      end.
      { unfold Compiler.set_add. cbn [existsb Compiler.triple_eq].
        by rewrite !String.eqb_refl, Hlit. }
      cbn [Compiler.create_decision_tree Compiler.node_eval eval map_result].
      rewrite !condition_eval_at, Hft, Hff. cbn [bind invert].
      rewrite !connect_pair.
      by eexists. }
  eexists. split.
  { rewrite combine_rules_run. fold low. rewrite Hop, Hfresh, Hbuild. done. }
  intros c. rewrite !evaluate_run, H1, H2.
  unfold store. cbn [rules catalog rule_name decision_tree fst].
  rewrite lookup_insert_eq. cbn [decision_tree fst].
  destruct (validate_candidate (catalog self) c) as [[]|]; [|done].
  cbn [bind]. rewrite Htree, Htree1, Htree2, !walk_condition_tree.
  destruct (candidate_get c attribute) as [v|]; [|done].
  destruct (compare_with op v literal) as [[[]|]|]; done.
Qed.

Lemma combine_same_condition_witness :
  exists rule,
    combine_rules "rule" ["adult"; "minor"] "or"
      (create_rule "minor" "NOT age >= 18" engine_adult).2
    = (Ok rule, store rule (create_rule "minor" "NOT age >= 18" engine_adult).2)
    /\ forall c,
        (evaluate "rule" c
           (store rule (create_rule "minor" "NOT age >= 18" engine_adult).2)).1
        = (x <- (evaluate "adult" c
                   (create_rule "minor" "NOT age >= 18" engine_adult).2).1 ;;
           y <- (evaluate "minor" c
                   (create_rule "minor" "NOT age >= 18" engine_adult).2).1 ;;
           Ok (connect (PyStr.lower "or") x y)).
Proof.
  eapply (combine_same_condition "rule" "adult" "minor" "or" _ _ _
            "age" ">=" (VInt 18) false true); vm_compute; reflexivity.
Defined.

(** Combining no rule at all gives, under a free name, a rule with an empty
    text and no child, which is true of every candidate that validates. *)
Theorem combine_rules_of_nothing name operator self :
  RuleParser.member (PyStr.lower operator) ["and"; "or"] = true ->
  rules self !! name = None ->
  exists rule,
    combine_rules name [] operator self = (Ok rule, store rule self)
    /\ rule_str rule = ""
    /\ rule_ast rule = operation (PyStr.lower operator) [] false
    /\ forall c,
        validate_candidate (catalog self) c = Ok tt ->
        evaluate name c (store rule self) = (Ok true, store rule self).
Proof.
  intros Hop Hfresh. eexists. split; [|split; [|split]].
  - rewrite combine_rules_run, Hop, Hfresh. reflexivity.
  - reflexivity.
  - reflexivity.
  - intros c Hc. rewrite evaluate_run. unfold store.
    cbn [rules catalog rule_name]. rewrite lookup_insert_eq, Hc. reflexivity.
Qed.

Lemma combine_rules_of_nothing_witness :
  exists rule,
    combine_rules "any" [] "Or" engine_adult = (Ok rule, store rule engine_adult)
    /\ rule_str rule = ""
    /\ rule_ast rule = operation (PyStr.lower "Or") [] false
    /\ forall c,
        validate_candidate (catalog engine_adult) c = Ok tt ->
        evaluate "any" c (store rule engine_adult)
        = (Ok true, store rule engine_adult).
Proof.
  apply (combine_rules_of_nothing "any" "Or" engine_adult);
    vm_compute; reflexivity.
Defined.

End RuleFacts.

(** ** The evaluation handlers *)

Section ApiFacts.

Import Engine Api.

Lemma evaluate_pair rule_name c self :
  evaluate rule_name c self = ((evaluate rule_name c self).1, self).
Proof.
  rewrite <- (evaluate_leaves_engine_aux rule_name c self) at 3.
  by destruct (evaluate rule_name c self).
Qed.

Lemma batch_loop_settled rule_name self : forall candidates i results,
  Forall (fun c => settled (evaluate rule_name c self).1 = true) candidates ->
  batch_loop rule_name i candidates results self
  = (Returns (results
              ++ imap (fun k c => batch_item (i + k)
                                    (evaluate rule_name c self).1)
                   candidates)%list, self).
Proof.
  induction candidates as [|c rest IH]; intros i results Hall.
  - cbn. by rewrite app_nil_r.
  - apply Forall_cons in Hall as [Hc Hrest].
    cbn [batch_loop imap]. rewrite evaluate_pair.
    rewrite Nat.add_0_r.
    destruct (evaluate rule_name c self).1 as [b|e]; cbn [settled] in Hc.
    + rewrite (IH (S i)) by done. rewrite <- app_assoc. cbn [app batch_item].
      do 4 f_equal. apply imap_ext. intros k x _. cbn. do 2 f_equal. lia.
    + rewrite Hc. rewrite (IH (S i)) by done.
      rewrite <- app_assoc. cbn [app batch_item].
      do 4 f_equal. apply imap_ext. intros k x _. cbn. do 2 f_equal. lia.
Qed.

(** [batch_evaluate] answers 404 for an unknown rule.  For a known one, when
    every candidate either evaluates or fails with a [ValueError], it returns
    one item per candidate, in order and numbered from 0: the result with no
    error, or [False] with the error; no candidate's [ValueError] affects
    another's item, and the engine is unchanged. *)
Theorem batch_evaluate_isolates rule_name candidates self :
  (rules self !! rule_name = None ->
   batch_evaluate rule_name candidates self
   = (HTTPException 404 "Rule not found" None, self))
  /\ (is_Some (rules self !! rule_name) ->
      Forall (fun c => settled (evaluate rule_name c self).1 = true)
        candidates ->
      batch_evaluate rule_name candidates self
      = (Returns {| batch_rule_name := rule_name;
                    batch_results :=
                      imap (fun i c => batch_item i
                                         (evaluate rule_name c self).1)
                        candidates |}, self)).
Proof.
  unfold batch_evaluate. split.
  - by intros ->.
  - intros [rule ->] Hall. by rewrite batch_loop_settled.
Qed.

Lemma batch_evaluate_isolates_witness :
  batch_evaluate "senior" [[("age", VInt 70)]] engine_adult
  = (HTTPException 404 "Rule not found" None, engine_adult)
  /\ batch_evaluate "adult"
       [[("age", VInt 25)]; [("age", VStr "old")]; []; [("age", VInt 17)]]
       engine_adult
     = (Returns
          {| batch_rule_name := "adult";
             batch_results :=
               [ {| item_index := 0; item_result := true;
                    item_error := None |};
                 {| item_index := 1; item_result := false;
                    item_error := Some (InvalidValue "age" (VStr "old")) |};
                 {| item_index := 2; item_result := false;
                    item_error := Some (ValueError "Missing attribute: age") |};
                 {| item_index := 3; item_result := false;
                    item_error := None |} ] |}, engine_adult).
Proof.
  split.
  - apply (proj1 (batch_evaluate_isolates "senior" _ engine_adult)).
    vm_compute. reflexivity.
  - apply (proj2 (batch_evaluate_isolates "adult"
                    [[("age", VInt 25)]; [("age", VStr "old")]; [];
                     [("age", VInt 17)]] engine_adult)).
    + vm_compute. by eexists.
    + repeat constructor.
Defined.

Lemma batch_loop_propagates rule_name self c e post :
  (evaluate rule_name c self).1 = Raise e ->
  is_ValueError e = false ->
  forall pre i results,
    Forall (fun c => settled (evaluate rule_name c self).1 = true) pre ->
    batch_loop rule_name i (pre ++ c :: post) results self
    = (Propagates e, self).
Proof.
  intros Hc He. induction pre as [|c' pre IH]; intros i results Hall.
  - cbn [app batch_loop]. by rewrite evaluate_pair, Hc, He.
  - apply Forall_cons in Hall as [Hc' Hpre].
    cbn [app batch_loop]. rewrite evaluate_pair.
    destruct (evaluate rule_name c' self).1 as [b|e']; cbn [settled] in Hc'.
    + by apply IH.
    + rewrite Hc'. by apply IH.
Qed.

(** The isolation covers [ValueError] only: when the evaluation of one
    candidate raises another exception (the [AttributeError] or [TypeError]
    of a comparison), [batch_evaluate] lets it through; the items of the
    candidates before it are lost and those after it are never evaluated. *)
Theorem batch_evaluate_aborts rule_name pre c post e self :
  is_Some (rules self !! rule_name) ->
  Forall (fun c => settled (evaluate rule_name c self).1 = true) pre ->
  (evaluate rule_name c self).1 = Raise e ->
  is_ValueError e = false ->
  batch_evaluate rule_name (pre ++ c :: post) self = (Propagates e, self).
Proof.
  intros [rule Hrule] Hpre Hc He. unfold batch_evaluate. rewrite Hrule.
  by rewrite (batch_loop_propagates _ _ _ _ _ Hc He).
Qed.

Lemma batch_evaluate_aborts_witness :
  batch_evaluate "r"
    ([[("age", VStr "old")]] ++ [("age", VInt 30)] :: [[("age", VInt 17)]])
    (create_rule "r" "age = abc" engine_adult).2
  = (Propagates (AttributeError "'int' object has no attribute 'lower'"),
     (create_rule "r" "age = abc" engine_adult).2).
Proof.
  apply batch_evaluate_aborts.
  - vm_compute. by eexists.
  - repeat constructor.
  - vm_compute. reflexivity.
  - reflexivity.
Defined.

Lemma multi_loop_returns c self : forall rule_names results,
  Forall (fun n => is_Some (rules self !! n)
                   /\ is_Some (returned (evaluate n c self).1)) rule_names ->
  exists m,
    multi_loop rule_names c results self = (Returns m, self)
    /\ forall n,
        m !! n = if decide (n ∈ rule_names)
                 then returned (evaluate n c self).1
                 else results !! n.
Proof.
  induction rule_names as [|x rest IH]; intros results Hall.
  - exists results. split; [done|]. intros n.
    by rewrite decide_False by apply not_elem_of_nil.
  - apply Forall_cons in Hall as [[[rule Hrule] [b Hb]] Hrest].
    cbn [multi_loop]. rewrite Hrule, evaluate_pair.
    destruct (evaluate x c self).1 as [b'|] eqn:Hx; [|done].
    cbn [returned] in Hb. simplify_eq.
    destruct (IH (<[x := b]> results) Hrest) as (m & -> & Hm).
    exists m. split; [done|]. intros n. rewrite Hm.
    destruct (decide (n ∈ rest)) as [Hin|Hout].
    + by rewrite decide_True by (by right).
    + destruct (decide (n = x)) as [->|Hne].
      * rewrite lookup_insert_eq, decide_True by (by left). by rewrite Hx.
      * rewrite lookup_insert_ne by done.
        rewrite decide_False; [done|].
        by intros [?|?]%elem_of_cons.
Qed.

(** When every named rule exists and evaluates, [evaluate_multi_rules]
    returns the dictionary that maps exactly the given names to their
    values, and leaves the engine unchanged. *)
Theorem evaluate_multi_rules_returns rule_names c self :
  Forall (fun n => is_Some (rules self !! n)
                   /\ is_Some (returned (evaluate n c self).1)) rule_names ->
  exists m,
    evaluate_multi_rules rule_names c self = (Returns m, self)
    /\ forall n b,
        m !! n = Some b
        <-> n ∈ rule_names /\ (evaluate n c self).1 = Ok b.
Proof.
  intros Hall. unfold evaluate_multi_rules.
  destruct (multi_loop_returns c self rule_names ∅ Hall) as (m & Hm & Hlook).
  exists m. split; [done|]. intros n b. rewrite Hlook.
  destruct (decide (n ∈ rule_names)) as [Hin|Hout].
  - destruct (evaluate n c self).1; cbn [returned]; split.
    + by intros [= ->].
    + by intros [_ [= ->]].
    + done.
    + by intros [_ ?].
  - rewrite lookup_empty. split; [done|by intros [? _]].
Qed.

Lemma evaluate_multi_rules_returns_witness :
  exists m,
    evaluate_multi_rules ["senior"; "adult"; "senior"] [("age", VInt 30)]
      engine_two_rules
    = (Returns m, engine_two_rules)
    /\ forall n b,
        m !! n = Some b
        <-> n ∈ ["senior"; "adult"; "senior"]
            /\ (evaluate n [("age", VInt 30)] engine_two_rules).1 = Ok b.
Proof.
  apply evaluate_multi_rules_returns.
  repeat constructor; vm_compute; by eexists.
Defined.

Lemma multi_loop_stops c self rule_name post out :
  (forall results,
      multi_loop (rule_name :: post) c results self = (out, self)) ->
  forall pre results,
    Forall (fun n => is_Some (rules self !! n)
                     /\ is_Some (returned (evaluate n c self).1)) pre ->
    multi_loop (pre ++ rule_name :: post) c results self = (out, self).
Proof.
  intros Hstop. induction pre as [|x pre IH]; intros results Hall.
  - apply Hstop.
  - apply Forall_cons in Hall as [[[rule Hrule] [b Hb]] Hpre].
    cbn [app multi_loop]. rewrite Hrule, evaluate_pair.
    destruct (evaluate x c self).1; [|done]. by apply IH.
Qed.

(** [evaluate_multi_rules] is strict where [batch_evaluate] is not: the
    first name that is unknown ends the whole call with a 404, and the first
    rule whose evaluation raises a [ValueError] ends it with a 400; the
    values already computed for the names before it are dropped. *)
Theorem evaluate_multi_rules_is_strict pre rule_name post c self :
  Forall (fun n => is_Some (rules self !! n)
                   /\ is_Some (returned (evaluate n c self).1)) pre ->
  (rules self !! rule_name = None ->
   evaluate_multi_rules (pre ++ rule_name :: post) c self
   = (HTTPException 404 ("Rule not found: " ++ rule_name) None, self))
  /\ (forall e,
        is_Some (rules self !! rule_name) ->
        (evaluate rule_name c self).1 = Raise e ->
        is_ValueError e = true ->
        evaluate_multi_rules (pre ++ rule_name :: post) c self
        = (HTTPException 400
             ("Error evaluating rule '" ++ rule_name ++ "': ") (Some e),
           self)).
Proof.
  intros Hpre. unfold evaluate_multi_rules. split.
  - intros Hnone. apply multi_loop_stops; [|done].
    intros results. cbn [multi_loop]. by rewrite Hnone.
  - intros e [rule Hrule] He Hval. apply multi_loop_stops; [|done].
    intros results. cbn [multi_loop].
    by rewrite Hrule, evaluate_pair, He, Hval.
Qed.

Lemma evaluate_multi_rules_is_strict_witness :
  evaluate_multi_rules (["adult"] ++ "senior" :: ["adult"])
    [("age", VInt 30)] engine_adult
  = (HTTPException 404 ("Rule not found: " ++ "senior") None, engine_adult)
  /\ evaluate_multi_rules (["adult"] ++ "us" :: ["adult"])
       [("age", VInt 30)] (create_rule "us" "country = 'us'" engine_adult).2
     = (HTTPException 400 ("Error evaluating rule '" ++ "us" ++ "': ")
          (Some (ValueError "Missing attribute: country")),
        (create_rule "us" "country = 'us'" engine_adult).2).
Proof.
  split.
  - apply (proj1 (evaluate_multi_rules_is_strict ["adult"] "senior" ["adult"]
                    [("age", VInt 30)] engine_adult
                    ltac:(repeat constructor; vm_compute; by eexists))).
    vm_compute. reflexivity.
  - apply (proj2 (evaluate_multi_rules_is_strict ["adult"] "us" ["adult"]
                    [("age", VInt 30)]
                    (create_rule "us" "country = 'us'" engine_adult).2
                    ltac:(repeat constructor; vm_compute; by eexists))).
    + vm_compute. by eexists.
    + vm_compute. reflexivity.
    + reflexivity.
Defined.

End ApiFacts.

(** ** The attribute catalog *)

Section CatalogFacts.

Lemma add_attribute_success_aux definition cat cat' :
  Catalog.add_attribute definition cat = (Ok tt, cat') ->
  attributes cat !! name definition = None
  /\ definition_ok definition = true
  /\ attributes cat' !! name definition = Some definition
  /\ (forall k, k <> name definition ->
                attributes cat' !! k = attributes cat !! k).
Proof.
  unfold Catalog.add_attribute, definition_ok. intros H.
  destruct (attributes cat !! name definition) eqn:Hfresh; [done|].
  destruct definition as [n t lo hi allowed]. cbn in *.
  destruct t; cbn in H;
    repeat match type of H with
           | context [Catalog.min_above_max ?d] =>
               destruct (Catalog.min_above_max d) as [[]|]; cbn in H
           | context [Catalog.no_allowed_values ?d] =>
               destruct (Catalog.no_allowed_values d); cbn in H
           | context [Catalog.is_set ?x] => destruct x; cbn in H
           end; try done;
    simplify_eq; cbn;
    (repeat split; [done..|apply lookup_insert_eq
                    |by intros; apply lookup_insert_ne]).
Qed.

(** An [add_attribute] that returns found the name free and the definition
    in order; the definition can be looked up under its name and every other
    attribute is as before. *)
Theorem add_attribute_success definition cat cat' :
  Catalog.add_attribute definition cat = (Ok tt, cat') ->
  attributes cat !! name definition = None
  /\ definition_ok definition = true
  /\ attributes cat' !! name definition = Some definition
  /\ (forall k, k <> name definition ->
                attributes cat' !! k = attributes cat !! k).
Proof. intros; eapply add_attribute_success_aux; eauto. Qed.

Lemma add_attribute_success_witness :
  attributes (catalog engine_empty) !! name
    {| name := "income"; attr_type := FLOAT; min_value := Some (VInt 0);
       max_value := None; allowed_values := None |} = None
  /\ definition_ok
       {| name := "income"; attr_type := FLOAT; min_value := Some (VInt 0);
          max_value := None; allowed_values := None |} = true
  /\ attributes
       (Catalog.add_attribute
          {| name := "income"; attr_type := FLOAT; min_value := Some (VInt 0);
             max_value := None; allowed_values := None |}
          (catalog engine_empty)).2
     !! name {| name := "income"; attr_type := FLOAT;
                min_value := Some (VInt 0); max_value := None;
                allowed_values := None |}
     = Some {| name := "income"; attr_type := FLOAT;
               min_value := Some (VInt 0); max_value := None;
               allowed_values := None |}
  /\ (forall k,
        k <> name {| name := "income"; attr_type := FLOAT;
                     min_value := Some (VInt 0); max_value := None;
                     allowed_values := None |} ->
        attributes
          (Catalog.add_attribute
             {| name := "income"; attr_type := FLOAT;
                min_value := Some (VInt 0); max_value := None;
                allowed_values := None |}
             (catalog engine_empty)).2 !! k
        = attributes (catalog engine_empty) !! k).
Proof.
  apply (add_attribute_success
           {| name := "income"; attr_type := FLOAT; min_value := Some (VInt 0);
              max_value := None; allowed_values := None |}
           (catalog engine_empty)).
  vm_compute. reflexivity.
Defined.

(** [add_attribute] keeps the catalog's invariant, whether it returns or
    raises: every stored definition is filed under its own name, a String
    attribute has allowed values, a Boolean one has no bounds, and numeric
    bounds are in order. *)
Theorem add_attribute_keeps_invariant definition cat r cat' :
  catalog_ok cat ->
  Catalog.add_attribute definition cat = (r, cat') ->
  catalog_ok cat'.
Proof.
  intros Hok Hadd. destruct r as [[]|e].
  - destruct (add_attribute_success_aux _ _ _ Hadd) as (_ & Hdef & Hnew & Hothers).
    intros k d Hk. destruct (decide (k = name definition)) as [->|Hne].
    + rewrite Hnew in Hk. by simplify_eq.
    + rewrite Hothers in Hk by done. by apply Hok.
  - by rewrite (catalog_add_attribute_raise _ _ _ _ Hadd).
Qed.

Lemma empty_catalog_ok : catalog_ok {| attributes := ∅ |}.
Proof. intros k d Hk. cbn in Hk. by rewrite lookup_empty in Hk. Qed.

Lemma add_attribute_keeps_invariant_witness :
  catalog_ok
    (Catalog.add_attribute age_attribute {| attributes := ∅ |}).2.
Proof.
  apply (add_attribute_keeps_invariant age_attribute {| attributes := ∅ |}
           (Catalog.add_attribute age_attribute {| attributes := ∅ |}).1).
  - exact empty_catalog_ok.
  - by destruct (Catalog.add_attribute age_attribute {| attributes := ∅ |}).
Defined.

Lemma order_of_numbers sym holds v w :
  PyValue.is_number v = true -> PyValue.is_number w = true ->
  exists b, PyValue.order sym holds v w = Ok b.
Proof.
  unfold PyValue.order, PyValue.compare.
  destruct v, w; try done; cbn;
    repeat match goal with
           | |- context [match ?x with _ => _ end] => destruct x
           end; by eexists.
Qed.

Lemma in_range_answers d v :
  bounds_numeric d = true -> PyValue.is_number v = true ->
  exists b, Catalog.in_range d v = Ok b.
Proof.
  unfold bounds_numeric, Catalog.in_range.
  intros [Hlo Hhi]%andb_true_iff Hv.
  destruct (min_value d) as [lo|].
  - destruct (order_of_numbers "<" (fun c => match c with Lt => true | _ => false end)
                v lo Hv Hlo) as [[] Hb];
      unfold PyValue.lt; rewrite Hb; cbn [bind]; [by eexists|].
    destruct (max_value d) as [hi|]; [|by eexists].
    destruct (order_of_numbers ">" (fun c => match c with Gt => true | _ => false end)
                v hi Hv Hhi) as [[] Hb'];
      unfold PyValue.gt; rewrite Hb'; cbn [bind]; by eexists.
  - cbn [bind].
    destruct (max_value d) as [hi|]; [|by eexists].
    destruct (order_of_numbers ">" (fun c => match c with Gt => true | _ => false end)
                v hi Hv Hhi) as [[] Hb'];
      unfold PyValue.gt; rewrite Hb'; cbn [bind]; by eexists.
Qed.

(** [validate_value] raises for an unknown attribute, and only then: for a
    definition that keeps the invariants and has numeric bounds it answers
    true or false for any value at all. *)
Theorem validate_value_raises_only_for_unknown cat attr_name v :
  (attributes cat !! attr_name = None ->
   Catalog.validate_value cat attr_name v
   = Raise (ValueError ("Unknown attribute: " ++ attr_name)))
  /\ (forall d,
        attributes cat !! attr_name = Some d ->
        definition_ok d = true ->
        bounds_numeric d = true ->
        exists b, Catalog.validate_value cat attr_name v = Ok b).
Proof.
  unfold Catalog.validate_value. split.
  - by intros ->.
  - intros d -> Hok Hbounds. unfold definition_ok in Hok.
    destruct (attr_type d).
    + destruct (PyValue.is_int v) eqn:Hv; [|by eexists].
      apply in_range_answers; [done|by destruct v].
    + destruct (PyValue.is_number v) eqn:Hv; [|by eexists].
      by apply in_range_answers.
    + by eexists.
    + destruct v; try by eexists.
      unfold Catalog.no_allowed_values in Hok.
      destruct (allowed_values d); [by eexists|done].
Qed.

Lemma validate_value_raises_only_for_unknown_witness :
  Catalog.validate_value (catalog engine_empty) "height" (VInt 180)
  = Raise (ValueError ("Unknown attribute: " ++ "height"))
  /\ exists b,
      Catalog.validate_value (catalog engine_empty) "country" (VInt 180) = Ok b.
Proof.
  split.
  - apply (proj1 (validate_value_raises_only_for_unknown
                    (catalog engine_empty) "height" (VInt 180))).
    vm_compute. reflexivity.
  - apply (proj2 (validate_value_raises_only_for_unknown
                    (catalog engine_empty) "country" (VInt 180))
             country_attribute); vm_compute; reflexivity.
Defined.

(** An Integer attribute with integer bounds accepts exactly the integers
    between its bounds, both included, and takes a boolean for the integer 0
    or 1; it refuses every other value. *)
Theorem validate_integer cat attr_name d lo hi v :
  attributes cat !! attr_name = Some d ->
  attr_type d = INTEGER ->
  min_value d = VInt <$> lo ->
  max_value d = VInt <$> hi ->
  Catalog.validate_value cat attr_name v
  = Ok match v with
       | VInt z => within lo hi z
       | VBool b => within lo hi (if b then 1 else 0)
       | _ => false
       end.
Proof.
  intros Hattr Htype Hlo Hhi. unfold Catalog.validate_value.
  rewrite Hattr, Htype.
  assert (forall z, Catalog.in_range d (VInt z) = Ok (within lo hi z)) as Hrange.
  { intros z. unfold Catalog.in_range, within. rewrite Hlo, Hhi.
    destruct lo as [l|], hi as [h|]; cbn;
      unfold PyValue.lt, PyValue.gt, PyValue.order; cbn;
      repeat match goal with
             | |- context [?x ?= ?y] =>
                 destruct (Z.compare_spec x y)
             end; cbn;
      repeat match goal with
             | |- context [?x <=? ?y] => destruct (Z.leb_spec x y)
             end; cbn; try reflexivity; lia. }
  assert (forall b, Catalog.in_range d (VBool b)
                    = Catalog.in_range d (VInt (if b then 1 else 0))) as Hbool.
  { intros b. unfold Catalog.in_range. rewrite Hlo, Hhi.
    by destruct lo, hi. }
  destruct v as [|b|z| |]; cbn [PyValue.is_int]; try done.
  by rewrite Hbool.
Qed.

Lemma validate_integer_witness :
  Catalog.validate_value
    {| attributes :=
         {[ "age" := {| name := "age"; attr_type := INTEGER;
                        min_value := Some (VInt 0);
                        max_value := Some (VInt 120);
                        allowed_values := None |} ]} |}
    "age" (VInt 120)
  = Ok (within (Some 0) (Some 120) 120).
Proof.
  apply (validate_integer _ "age"
           {| name := "age"; attr_type := INTEGER; min_value := Some (VInt 0);
              max_value := Some (VInt 120); allowed_values := None |}
           (Some 0) (Some 120) (VInt 120)); reflexivity.
Defined.

End CatalogFacts.

(** ** The tokenizer on well-formed text *)

Section TokenizerFacts.

Import RuleParser.

Lemma check_parens_inv tokens : forall pos paren_count final,
  check_parens tokens pos paren_count = Ok final ->
  final = paren_count + depth tokens
  /\ forall q, (q < length tokens)%nat ->
               0 <= paren_count + depth (take (S q) tokens).
Proof.
  induction tokens as [|token rest IH]; intros pos paren_count final.
  { simpl. intros [= <-]. split; [lia|]. intros q Hq. lia. }
  rewrite check_parens_step.
  destruct (Z.ltb_spec (paren_count + paren_delta token) 0) as [|Hge]; [done|].
  intros [-> Hpre]%IH. split; [simpl; lia|].
  intros [|q] Hq.
  - simpl. lia.
  - specialize (Hpre q ltac:(simpl in Hq; lia)). simpl in Hpre. simpl. lia.
Qed.

(** [tokenize_rule] returns exactly when the text has a token and the
    parentheses among its tokens match; what it returns are the tokens of
    the text. *)
Theorem tokenize_rule_success (rule : string) (tokens : list string) :
  tokenize_rule rule = Ok tokens
  <-> tokens = tokens_of rule /\ tokens <> [] /\ balanced tokens = true.
Proof.
  unfold balanced. split.
  - unfold tokenize_rule.
    destruct (negb _); [done|].
    unfold validate_tokens.
    destruct (tokens_of rule) as [|t ts] eqn:Hts; [done|].
    destruct (check_parens (t :: ts) 0 0) as [final|] eqn:Hscan; [|done].
    cbn [bind].
    destruct (Z.ltb_spec 0 final) as [|Hle]; [done|].
    intros [= <-]. split; [done|]. split; [done|].
    apply check_parens_inv in Hscan as [-> Hpre].
    apply andb_true_iff. split.
    + apply prefix_ok_spec. intros q Hq. specialize (Hpre q Hq). lia.
    + apply Z.eqb_eq.
      specialize (Hpre (length ts) ltac:(simpl; lia)).
      rewrite firstn_all2 in Hpre by (simpl; lia). lia.
  - intros (-> & Hne & [Hpre Hzero%Z.eqb_eq]%andb_true_iff).
    rewrite prefix_ok_spec in Hpre.
    rewrite tokenize_rule_not_blank by done.
    unfold validate_tokens.
    destruct (tokens_of rule) as [|t ts] eqn:Hts; [done|].
    rewrite (check_parens_ok _ 0%nat 0).
    + by rewrite Hzero.
    + intros q Hq. specialize (Hpre q Hq). lia.
Qed.

Lemma tokenize_rule_success_witness :
  tokenize_rule "(age>=18)" = Ok ["("; "age"; ">="; "18"; ")"].
Proof.
  apply (proj2 (tokenize_rule_success "(age>=18)" ["("; "age"; ">="; "18"; ")"])).
  split; [reflexivity|]. split; [discriminate|reflexivity].
Defined.

Lemma paren_not_cmp c :
  is_paren c = true -> PyStr.isspace c = false /\ is_cmp_char c = false.
Proof. destruct c as [[] [] [] [] [] [] [] []]; vm_compute; intuition congruence. Qed.

Lemma cmp_not_paren c :
  is_cmp_char c = true -> PyStr.isspace c = false /\ is_paren c = false.
Proof. destruct c as [[] [] [] [] [] [] [] []]; vm_compute; intuition congruence. Qed.

Lemma space_operators_plain c r :
  is_cmp_char c = false ->
  space_operators (String c r) = String c (space_operators r).
Proof.
  intros Hc. cbn [space_operators]. rewrite Hc.
  destruct r as [|c' r']; [done|].
  unfold is_cmp_char in Hc.
  apply orb_false_iff in Hc as [[_ ->]%orb_false_iff ->]. done.
Qed.

Lemma space_operators_single c r :
  is_cmp_char c = true ->
  match r with
  | String c' _ => ((c =? "<") || (c =? ">"))%char && (c' =? "=")%char
  | EmptyString => false
  end = false ->
  space_operators (String c r)
  = String " " (String c (String " " (space_operators r))).
Proof.
  intros Hc Hr. cbn [space_operators]. rewrite Hc.
  destruct r as [|c' r']; [done|]. by rewrite Hr.
Qed.

Lemma space_operators_double c r :
  ((c =? "<") || (c =? ">"))%char = true ->
  space_operators (String c (String "=" r))
  = String " " (String c (String "=" (String " " (space_operators r)))).
Proof. intros Hc. cbn [space_operators]. by rewrite Hc. Qed.

Lemma space_parens_cons c r :
  space_parens (String c r)
  = if is_paren c
    then String " " (String c (String " " (space_parens r)))
    else String c (space_parens r).
Proof. reflexivity. Qed.

Lemma spaced_paren c r :
  is_paren c = true ->
  space_operators (space_parens (String c r))
  = String " " (String c (String " " (space_operators (space_parens r)))).
Proof.
  intros Hc. rewrite space_parens_cons, Hc.
  destruct (paren_not_cmp c Hc) as [_ Hcmp].
  rewrite (space_operators_plain " ") by done.
  rewrite (space_operators_plain c) by done.
  by rewrite (space_operators_plain " ") by done.
Qed.

Lemma spaced_plain c r :
  is_paren c = false -> is_cmp_char c = false ->
  space_operators (space_parens (String c r))
  = String c (space_operators (space_parens r)).
Proof.
  intros Hp Hc. rewrite space_parens_cons, Hp.
  by rewrite space_operators_plain.
Qed.

Lemma spaced_double c r :
  ((c =? "<") || (c =? ">"))%char = true ->
  space_operators (space_parens (String c (String "=" r)))
  = String " " (String c (String "=" (String " "
      (space_operators (space_parens r))))).
Proof.
  intros Hc.
  assert (is_cmp_char c = true) as Hcmp.
  { unfold is_cmp_char. apply orb_true_iff in Hc as [->| ->];
      by rewrite ?orb_true_r. }
  destruct (cmp_not_paren c Hcmp) as [_ Hp].
  rewrite space_parens_cons, Hp, space_parens_cons.
  by apply space_operators_double.
Qed.

Lemma spaced_single c r :
  is_cmp_char c = true ->
  match r with
  | String c' _ => ((c =? "<") || (c =? ">"))%char && (c' =? "=")%char
  | EmptyString => false
  end = false ->
  space_operators (space_parens (String c r))
  = String " " (String c (String " " (space_operators (space_parens r)))).
Proof.
  intros Hc Hr. destruct (cmp_not_paren c Hc) as [_ Hp].
  rewrite space_parens_cons, Hp.
  apply space_operators_single; [done|].
  destruct r as [|c' r']; [done|].
  rewrite space_parens_cons. destruct (is_paren c'); [|done].
  apply andb_false_r.
Qed.

(** The text after the two substitutions starts with a space where the
    original starts with a parenthesis or an operator, and with the same
    character otherwise. *)
Lemma spaced_head c r :
  exists rest,
    space_operators (space_parens (String c r))
    = String (if is_paren c || is_cmp_char c then " "%char else c) rest.
Proof.
  destruct (is_paren c) eqn:Hp.
  { rewrite spaced_paren by done. by eexists. }
  destruct (is_cmp_char c) eqn:Hc; cbn [orb].
  2: { rewrite spaced_plain by done. by eexists. }
  destruct (match r with
            | String c' _ => ((c =? "<") || (c =? ">"))%char && (c' =? "=")%char
            | EmptyString => false
            end) eqn:Hr.
  - destruct r as [|c' r']; [done|].
    apply andb_true_iff in Hr as [Hlt ->%Ascii.eqb_eq].
    rewrite spaced_double by done. by eexists.
  - rewrite spaced_single by done. by eexists.
Qed.

Lemma split_cons c r :
  PyStr.split (String c r)
  = if PyStr.isspace c then PyStr.split r
    else match r with
         | EmptyString => [String c EmptyString]
         | String c' _ =>
             if PyStr.isspace c' then String c EmptyString :: PyStr.split r
             else match PyStr.split r with
                  | t :: ts => String c t :: ts
                  | [] => [String c EmptyString]
                  end
         end.
Proof. reflexivity. Qed.

Lemma split_spaced_token c r :
  PyStr.isspace c = false ->
  PyStr.split (String " " (String c (String " " r)))
  = String c EmptyString :: PyStr.split r.
Proof.
  intros Hc. rewrite (split_cons " "). change (PyStr.isspace " ") with true.
  cbv iota. rewrite split_cons, Hc. change (PyStr.isspace " ") with true.
  cbv iota. by rewrite (split_cons " ").
Qed.

Lemma scan_spaced : forall n s,
  (String.length s <= n)%nat ->
  PyStr.split (space_operators (space_parens s)) = scan s.
Proof.
  induction n as [|n IH]; intros [|c r] Hn; try done; [simpl in Hn; lia|].
  cbn [String.length] in Hn. cbn [scan].
  destruct (PyStr.isspace c) eqn:Hsp.
  { destruct (isspace_not_special c Hsp) as (Ho & Hc & Hcmp).
    rewrite spaced_plain by (by unfold is_paren; rewrite ?Ho, ?Hc).
    rewrite split_cons, Hsp. apply IH. lia. }
  destruct (is_paren c) eqn:Hp.
  { rewrite spaced_paren, split_spaced_token by done.
    f_equal. apply IH. lia. }
  destruct (is_cmp_char c) eqn:Hc.
  - destruct r as [|c' r'].
    { rewrite spaced_single by done. by rewrite split_spaced_token. }
    destruct (((c =? "<") || (c =? ">"))%char && (c' =? "=")%char) eqn:Hr.
    + apply andb_true_iff in Hr as [Hlt ->%Ascii.eqb_eq].
      rewrite spaced_double by done.
      rewrite (split_cons " "). change (PyStr.isspace " ") with true.
      cbv iota. rewrite split_cons, Hsp.
      change (PyStr.isspace "=") with false. cbv iota.
      rewrite (split_cons "="). change (PyStr.isspace "=") with false.
      change (PyStr.isspace " ") with true. cbv iota.
      rewrite (split_cons " "). change (PyStr.isspace " ") with true.
      cbv iota. f_equal. apply IH. cbn [String.length] in Hn. lia.
    + rewrite spaced_single, split_spaced_token by done.
      f_equal. apply IH. simpl in *. lia.
  - rewrite spaced_plain by done.
    destruct r as [|c' r'].
    { by rewrite split_cons, Hsp. }
    pose proof (IH (String c' r') ltac:(simpl in *; lia)) as Hrest.
    destruct (spaced_head c' r') as [rest Hhead].
    rewrite Hhead in *. rewrite split_cons, Hsp.
    assert (PyStr.isspace (if is_paren c' || is_cmp_char c'
                           then " "%char else c') = ends_word c') as ->.
    { unfold ends_word.
      destruct (is_paren c'), (is_cmp_char c');
        by rewrite ?orb_true_r, ?orb_false_r. }
    by rewrite Hrest.
Qed.

Lemma split_heads s :
  Forall (fun t => exists c r, t = String c r /\ PyStr.isspace c = false)
    (PyStr.split s).
Proof.
  induction s as [|c r IH]; [constructor|].
  rewrite split_cons.
  destruct (PyStr.isspace c) eqn:Hc; [done|].
  destruct r as [|c' r']; [constructor; [by eexists _, _|constructor]|].
  destruct (PyStr.isspace c'); [constructor; [by eexists _, _|done]|].
  destruct (PyStr.split (String c' r')) as [|t ts];
    [constructor; [by eexists _, _|constructor]|].
  apply Forall_cons in IH as [_ IH]. constructor; [by eexists _, _|done].
Qed.

Lemma strip_head c r :
  PyStr.isspace c = false ->
  PyStr.truthy (PyStr.strip PyStr.isspace (String c r)) = true.
Proof.
  intros Hc. unfold PyStr.strip. cbn [PyStr.lstrip]. rewrite Hc.
  cbn [PyStr.rstrip]. destruct (PyStr.rstrip PyStr.isspace r); [|done].
  by rewrite Hc.
Qed.

(** The two substitutions and the split amount to one scan of the text from
    left to right: white space only separates, a parenthesis is always a
    token of its own, [<=] and [>=] are one token, any other [=], [<] or [>]
    is a token of its own, and the remaining characters form words, whether
    or not the text puts spaces around its parentheses and operators. *)
Theorem tokens_of_scan (rule : string) : tokens_of rule = scan rule.
Proof.
  unfold tokens_of. rewrite (scan_spaced (String.length rule)) by done.
  rewrite <- (scan_spaced (String.length rule) rule) by done.
  induction (split_heads (space_operators (space_parens rule)))
    as [|t ts (c & r & -> & Hc) _ IH]; [done|].
  rewrite filter_cons_True by (by apply strip_head). by rewrite IH.
Qed.

End TokenizerFacts.
